(** * Sandbox lifecycle, command execution and reconnaissance of AutoCTF

    A shallow embedding of [src/sandbox_manager.py] (class [SandboxManager]),
    [src/mcp/exec_client.py] ([get_sandbox], [exec_command]) and
    [src/agent/recon.py] ([run_recon], [run_lightweight_recon],
    [run_github_recon]).

    The remote E2B service is an oracle [env : nat -> resp]: the [i]-th remote
    call (sandbox creation or [commands.run]) of a run receives [env i].
    Console output ([print]) has no effect on the state and is left out. *)

From Stdlib Require Import String Ascii ZArith List Bool Lia.
From Stdlib Require QArith_base.
Import ListNotations.
Local Open Scope string_scope.

(* ------------------------------------------------------------------ *)
(** ** Python string operations used by the code *)

Module Py.

(** A Python [str] is modelled by the bytes of its UTF-8 encoding.  Its
    code points are the byte groups of that encoding: a byte followed by
    the continuation bytes (0x80-0xBF) after it. *)
Definition is_cont (c : ascii) : bool :=
  (128 <=? nat_of_ascii c)%nat && (nat_of_ascii c <=? 191)%nat.

Fixpoint chars (l : list ascii) : list (list ascii) :=
  match l with
  | [] => []
  | c :: r =>
      match chars r with
      | (d :: g) :: gs => if is_cont d then (c :: d :: g) :: gs else [c] :: (d :: g) :: gs
      | gs => [c] :: gs
      end
  end.

(** [ch.isspace()]: the code points removed by [str.strip()] and separating
    the fields of [str.split()]: U+0009-U+000D, U+001C-U+0020, U+0085,
    U+00A0, U+1680, U+2000-U+200A, U+2028, U+2029, U+202F, U+205F, U+3000,
    here by their UTF-8 bytes. *)
Definition is_ws (ch : list ascii) : bool :=
  match map nat_of_ascii ch with
  | [n] => ((9 <=? n) && (n <=? 13)) || ((28 <=? n) && (n <=? 32))
  | [a; n] => (a =? 194) && ((n =? 133) || (n =? 160))
  | [a; m; n] =>
      ((a =? 225) && (m =? 154) && (n =? 128))
      || ((a =? 226) && (m =? 128)
          && (((128 <=? n) && (n <=? 138)) || (n =? 168) || (n =? 169) || (n =? 175)))
      || ((a =? 226) && (m =? 129) && (n =? 159))
      || ((a =? 227) && (m =? 128) && (n =? 128))
  | _ => false
  end%nat.

(** [s.startswith(p)] *)
Fixpoint startswith (s p : string) : bool :=
  match p, s with
  | EmptyString, _ => true
  | String a p', String b s' => Ascii.eqb a b && startswith s' p'
  | _, _ => false
  end.

(** [needle in hay] *)
Fixpoint contains (needle hay : string) : bool :=
  startswith hay needle ||
  match hay with
  | EmptyString => false
  | String _ h => contains needle h
  end.

Fixpoint lstrip_l (l : list (list ascii)) : list (list ascii) :=
  match l with
  | c :: r => if is_ws c then lstrip_l r else l
  | [] => []
  end.

(** [s.strip()] *)
Definition strip (s : string) : string :=
  string_of_list_ascii
    (concat (rev (lstrip_l (rev (lstrip_l (chars (list_ascii_of_string s))))))).

Fixpoint take_token (l : list (list ascii)) : list (list ascii) :=
  match l with
  | c :: r => if is_ws c then [] else c :: take_token r
  | [] => []
  end.

(** [s.split()[0]]; [None] is the [IndexError] of an all-blank [s]. *)
Definition split_first (s : string) : option string :=
  match lstrip_l (chars (list_ascii_of_string s)) with
  | [] => None
  | l => Some (string_of_list_ascii (concat (take_token l)))
  end.

(** [s[:n]] *)
Definition take (n : nat) (s : string) : string := substring 0 n s.

Fixpoint replace_aux (fuel : nat) (old new s : string) : string :=
  match fuel with
  | O => s
  | S f =>
      if startswith s old
      then new ++ replace_aux f old new
                    (substring (String.length old) (String.length s - String.length old) s)
      else match s with
           | EmptyString => EmptyString
           | String c s' => String c (replace_aux f old new s')
           end
  end.

(** [s.replace(old, new)] for a non-empty [old]. *)
Definition replace (s old new : string) : string :=
  replace_aux (String.length s) old new s.

Fixpoint upto (sep : ascii) (s : string) : string :=
  match s with
  | EmptyString => EmptyString
  | String c s' => if Ascii.eqb c sep then EmptyString else String c (upto sep s')
  end.

Definition slash : ascii := "/".

(** [s.split('/')[0]] *)
Definition split_slash_first (s : string) : string := upto slash s.

Fixpoint digits (fuel : nat) (n : Z) (acc : string) : string :=
  match fuel with
  | O => acc
  | S f =>
      let acc' := String (ascii_of_nat (48 + Z.to_nat (n mod 10))) acc in
      if (n / 10 =? 0)%Z then acc' else digits f (n / 10) acc'
  end.

(** [str(n)] for a Python [int]. *)
Definition str_Z (n : Z) : string :=
  let body := digits (S (Z.to_nat (Z.log2 (Z.abs n)))) (Z.abs n) EmptyString in
  if (n <? 0)%Z then "-" ++ body else body.

(** [sep.join(l)] *)
Definition join (sep : string) (l : list string) : string := String.concat sep l.

Definition dq : string := String (ascii_of_nat 34) EmptyString.
Definition nl : string := String (ascii_of_nat 10) EmptyString.

End Py.

Import Py.

(* ------------------------------------------------------------------ *)
(** ** Remote service, exceptions and the world *)

(** What [sandbox.commands.run] returns. *)
Record cmd_result := mkResult {
  stdout : string;
  stderr : string;
  exit_code : Z
}.

(** The answer of the remote service to one call. *)
Inductive resp :=
| ROk (r : cmd_result)    (** call completed (for a creation: sandbox created) *)
| RTimeout                (** the call exceeded its timeout *)
| RExn (msg : string).    (** transport error: rate limit, quota, reset, ... *)

(** Python exceptions raised along the modelled paths. *)
Inductive exn :=
| TimeoutError                 (** [asyncio.TimeoutError] *)
| RuntimeError (msg : string)
| IndexError                   (** [command.split()[0]] on a blank command *)
| AttributeError               (** [None.commands] *)
| TransportError (msg : string).

(** [str(e)] *)
Definition str_exn (e : exn) : string :=
  match e with
  | TimeoutError => ""
  | RuntimeError m => m
  | IndexError => "list index out of range"
  | AttributeError => "'NoneType' object has no attribute 'commands'"
  | TransportError m => m
  end.

(** Which code site issued a [commands.run]. *)
Inductive origin := OUser | OProvision.

Inductive event :=
| ECreate (id : nat)                                 (** [AsyncSandbox.create] *)
| ERun (sb : nat) (cmd : string) (t : Z) (o : origin) (** [commands.run] *)
| EProvision                                         (** a tool installation starts *)
| EExec (cmd : string) (t : Z).                      (** [exec_command] is called *)

(** Fields of the [SandboxManager] instance, the module global [_sandbox] of
    [exec_client.py], the clock read by [time.time()], and the bookkeeping
    of the remote service (ids handed out, calls made, trace). *)
Record world := mkWorld {
  sandbox : option nat;
  created_at : option Z;
  command_count : Z;
  max_sandbox_age : Z;
  max_commands : Z;
  g_sandbox : option nat;
  clock : Z;
  next_id : nat;
  ncalls : nat;
  trace : list event
}.

Definition set_mgr (sb : option nat) (c : option Z) (n : Z) (w : world) : world :=
  mkWorld sb c n (max_sandbox_age w) (max_commands w) (g_sandbox w)
          (clock w) (next_id w) (ncalls w) (trace w).

Definition set_g_sandbox (g : option nat) (w : world) : world :=
  mkWorld (sandbox w) (created_at w) (command_count w) (max_sandbox_age w)
          (max_commands w) g (clock w) (next_id w) (ncalls w) (trace w).

Definition log_call (ev : event) (w : world) : world :=
  mkWorld (sandbox w) (created_at w) (command_count w) (max_sandbox_age w)
          (max_commands w) (g_sandbox w) (clock w) (next_id w)
          (S (ncalls w)) (trace w ++ [ev]).

Definition log_event (ev : event) (w : world) : world :=
  mkWorld (sandbox w) (created_at w) (command_count w) (max_sandbox_age w)
          (max_commands w) (g_sandbox w) (clock w) (next_id w)
          (ncalls w) (trace w ++ [ev]).

Definition bump_id (w : world) : world :=
  mkWorld (sandbox w) (created_at w) (command_count w) (max_sandbox_age w)
          (max_commands w) (g_sandbox w) (clock w) (S (next_id w))
          (ncalls w) (trace w).

(* ------------------------------------------------------------------ *)
(** ** The monad: reader of the oracle, state of the world, exceptions *)

Definition M (A : Type) : Type := (nat -> resp) -> world -> (exn + A) * world.

Definition ret {A} (x : A) : M A := fun _ w => (inr x, w).

Definition bind {A B} (m : M A) (k : A -> M B) : M B :=
  fun env w =>
    match m env w with
    | (inl e, w') => (inl e, w')
    | (inr x, w') => k x env w'
    end.

Definition raise {A} (e : exn) : M A := fun _ w => (inl e, w).

(** [try: m except Exception as e: h(e)] *)
Definition catch {A} (m : M A) (h : exn -> M A) : M A :=
  fun env w =>
    match m env w with
    | (inl e, w') => h e env w'
    | (inr x, w') => (inr x, w')
    end.

Definition get : M world := fun _ w => (inr w, w).
Definition modify (f : world -> world) : M unit := fun _ w => (inr tt, f w).

Notation "x <- m ;; k" := (bind m (fun x => k))
  (at level 61, m at next level, right associativity).
Notation "m ;;; k" := (bind m (fun _ => k))
  (at level 61, right associativity).

(** [await AsyncSandbox.create(...)]: a fresh sandbox id, or an exception. *)
Definition sandbox_create : M nat :=
  fun env w =>
    let id := next_id w in
    let w1 := log_call (ECreate id) w in
    match env (ncalls w) with
    | ROk _ => (inr id, bump_id w1)
    | RTimeout => (inl TimeoutError, w1)
    | RExn m => (inl (TransportError m), w1)
    end.

(** [await sb.commands.run(cmd, timeout=t)]; [None.commands] raises. *)
Definition commands_run (sb : option nat) (cmd : string) (t : Z) (o : origin)
  : M cmd_result :=
  fun env w =>
    match sb with
    | None => (inl AttributeError, w)
    | Some id =>
        let w1 := log_call (ERun id cmd t o) w in
        match env (ncalls w) with
        | ROk r => (inr r, w1)
        | RTimeout => (inl TimeoutError, w1)
        | RExn m => (inl (TransportError m), w1)
        end
    end.

Definition cat (l : list string) : string := String.concat "" l.
Definition spaces (n : nat) : string := string_of_list_ascii (repeat " "%char n).
Definition ind8 : string := spaces 8.
Definition ind12 : string := spaces 12.
Definition ind16 : string := spaces 16.
Definition ind20 : string := spaces 20.

(** The UTF-8 bytes of the check marks printed by the verification script. *)
Definition check_mark : string :=
  String (ascii_of_nat 226) (String (ascii_of_nat 156) (String (ascii_of_nat 147) EmptyString)).
Definition cross_mark : string :=
  String (ascii_of_nat 226) (String (ascii_of_nat 156) (String (ascii_of_nat 151) EmptyString)).

(* ------------------------------------------------------------------ *)
(** ** [SandboxManager] (src/sandbox_manager.py) *)

(** The dict returned by [run_command]: keys [stdout], [stderr],
    [exit_code], [success], [output]. *)
Record result := mkDict {
  r_stdout : string;
  r_stderr : string;
  r_exit_code : Z;
  r_success : bool;
  r_output : string
}.

(** [update_cmd] of [install_security_tools]; a backslash before a newline
    inside the triple-quoted literal joins the two lines. *)
Definition update_cmd : string :=
  cat [nl; ind12; "export DEBIAN_FRONTEND=noninteractive && ";
       ind12; "sudo apt-get update -qq 2>&1 | grep -E "; dq; "Reading|Fetched|E:|W:"; dq;
       " | tail -5"; nl; ind12].

Definition tools : list string :=
  ["nmap"; "nikto"; "gobuster"; "sqlmap"; "curl"; "wget"; "git"; "whois";
   "dnsutils"; "netcat-openbsd"].

Definition install_cmd : string :=
  cat [nl; ind12; "export DEBIAN_FRONTEND=noninteractive && ";
       ind12; "sudo apt-get install -y -qq "; join " " tools; " 2>&1 | ";
       ind12; "grep -E "; dq; "Setting up|Unpacking|Done|E:|W:"; dq; " | tail -10";
       nl; ind12].

Definition verify_cmd : string :=
  cat [nl; ind12; "echo "; dq; "Checking installed tools:"; dq; " && ";
       ind12; "for tool in nmap nikto gobuster sqlmap curl wget git; do"; nl;
       ind16; "if command -v $tool >/dev/null 2>&1; then"; nl;
       ind20; "echo "; dq; "  "; check_mark; " $tool"; dq; nl;
       ind16; "else"; nl;
       ind20; "echo "; dq; "  "; cross_mark; " $tool (missing)"; dq; nl;
       ind16; "fi"; nl;
       ind12; "done"; nl; ind12].

(** [self.created_at and (time.time() - self.created_at > self.max_sandbox_age)] *)
Definition expired (w : world) : bool :=
  match created_at w with
  | Some c => negb (c =? 0)%Z && (clock w - c >? max_sandbox_age w)%Z
  | None => false
  end.

(** The [if / elif / elif] chain that sets [should_recreate]. *)
Definition should_recreate (w : world) : bool :=
  match sandbox w with
  | None => true
  | Some _ => expired w || (max_commands w <=? command_count w)%Z
  end.

Definition self_sandbox : M (option nat) := w <- get ;; ret (sandbox w).

(** [create_sandbox(template="base", timeout=900)] *)
Definition create_sandbox : M (option nat) :=
  catch (id <- sandbox_create ;;
         w <- get ;;
         modify (set_mgr (Some id) (Some (clock w)) 0%Z) ;;;
         ret (Some id))
        (fun e => raise (RuntimeError ("Failed to create E2B sandbox: " ++ str_exn e))).

(** [close_sandbox()]: nothing in its [try] block can raise. *)
Definition close_sandbox : M unit :=
  w <- get ;;
  match sandbox w with
  | Some _ => modify (set_mgr None None 0%Z)
  | None => ret tt
  end.

(** [install_security_tools()]: three remote commands inside one
    [try]; both [except] clauses swallow the exception.  The check of the
    critical tools only prints. *)
Definition install_security_tools : M unit :=
  w <- get ;;
  match sandbox w with
  | None => raise (RuntimeError "No sandbox available for tool installation")
  | Some _ =>
      modify (log_event EProvision) ;;;
      catch (sb <- self_sandbox ;; _ <- commands_run sb update_cmd 120 OProvision ;;
             sb <- self_sandbox ;; _ <- commands_run sb install_cmd 300 OProvision ;;
             sb <- self_sandbox ;; _ <- commands_run sb verify_cmd 30 OProvision ;;
             ret tt)
            (fun _ => ret tt)
  end.

(** [get_or_create_sandbox()] *)
Definition get_or_create_sandbox : M (option nat) :=
  w <- get ;;
  (if should_recreate w
   then close_sandbox ;;; create_sandbox ;;; install_security_tools
   else ret tt) ;;;
  self_sandbox.

Definition incr_count (w : world) : world :=
  set_mgr (sandbox w) (created_at w) (command_count w + 1)%Z w.

Definition result_of (r : cmd_result) : result :=
  mkDict (stdout r) (stderr r) (exit_code r) (exit_code r =? 0)%Z
         (stdout r ++ nl ++ stderr r).

Definition timeout_result (command : string) (timeout : Z) : result :=
  mkDict "" ("Timeout: Command exceeded " ++ str_Z timeout ++ "s limit") (-1)%Z false
         ("Command timed out after " ++ str_Z timeout ++ "s: " ++ take 80 command).

Definition failure_result (e : exn) : result :=
  let msg := "Command execution failed: " ++ str_exn e in
  mkDict "" msg (-1)%Z false msg.

Definition tool_unavailable_msg (tool : string) : string :=
  "Tool '" ++ tool ++ "' not available even after reinstall. "
  ++ "E2B sandbox may not support this tool.".

(** The [try] block of [run_command]. *)
Definition run_command_body (command : string) (timeout : Z) : M result :=
  sb <- get_or_create_sandbox ;;
  modify incr_count ;;;
  r <- commands_run sb command timeout OUser ;;
  r <- (if (exit_code r =? 127)%Z
        then match split_first command with
             | None => raise IndexError
             | Some tool =>
                 install_security_tools ;;;
                 r2 <- commands_run sb command timeout OUser ;;
                 if (exit_code r2 =? 127)%Z
                 then raise (RuntimeError (tool_unavailable_msg tool))
                 else ret r2
             end
        else ret r) ;;
  ret (result_of r).

(** [run_command(command, timeout=120)] *)
Definition run_command (command : string) (timeout : Z) : M result :=
  catch (run_command_body command timeout)
        (fun e => match e with
                  | TimeoutError => ret (timeout_result command timeout)
                  | _ => ret (failure_result e)
                  end).

(* ------------------------------------------------------------------ *)
(** ** [exec_client.py]: [get_sandbox] and [exec_command] *)

Definition update_cmd_x : string := "sudo apt-get update -qq".

Definition tools_x : list string :=
  ["nmap"; "nikto"; "gobuster"; "sqlmap"; "curl"; "wget"; "git"; "whois"; "dnsutils"].

Definition install_cmd_x : string :=
  cat [nl; ind12; "export DEBIAN_FRONTEND=noninteractive && ";
       ind12; "sudo apt-get install -y -qq "; join " " tools_x;
       " 2>&1 | grep -E "; dq; "Setting up|Unpacking|E:|W:"; dq; " || true"; nl; ind12].

Definition verify_cmd_x : string :=
  "command -v nmap && command -v nikto && command -v gobuster && command -v sqlmap && echo 'ALL_TOOLS_OK'".

Definition global_sandbox : M (option nat) := w <- get ;; ret (g_sandbox w).

(** [get_sandbox()]: creation errors propagate, installation errors are
    swallowed. *)
Definition get_sandbox : M (option nat) :=
  w <- get ;;
  match g_sandbox w with
  | Some sb => ret (Some sb)
  | None =>
      id <- sandbox_create ;;
      modify (set_g_sandbox (Some id)) ;;;
      modify (log_event EProvision) ;;;
      catch (g <- global_sandbox ;; _ <- commands_run g update_cmd_x 120 OProvision ;;
             g <- global_sandbox ;; _ <- commands_run g install_cmd_x 300 OProvision ;;
             g <- global_sandbox ;; _ <- commands_run g verify_cmd_x 30 OProvision ;;
             ret tt)
            (fun _ => ret tt) ;;;
      global_sandbox
  end.

Definition still_missing_msg (tool : string) : string :=
  "Tool '" ++ tool ++ "' still not found after reinstall attempt. "
  ++ "E2B sandbox may not support required packages.".

(** [exec_command(command, timeout=120)]: returns [stdout + "\n" + stderr]
    and turns every exception into a [RuntimeError]. *)
Definition exec_command (command : string) (timeout : Z) : M string :=
  modify (log_event (EExec command timeout)) ;;;
  catch (sb <- get_sandbox ;;
         r <- commands_run sb command timeout OUser ;;
         r <- (if (exit_code r =? 127)%Z
               then match split_first command with
                    | None => raise IndexError
                    | Some tool =>
                        modify (set_g_sandbox None) ;;;
                        sb2 <- get_sandbox ;;
                        r2 <- commands_run sb2 command timeout OUser ;;
                        if (exit_code r2 =? 127)%Z
                        then raise (RuntimeError (still_missing_msg tool))
                        else ret r2
                    end
               else ret r) ;;
         ret (stdout r ++ nl ++ stderr r))
        (fun e => raise (RuntimeError ("Command execution failed: " ++ str_exn e))).

(* ------------------------------------------------------------------ *)
(** ** [recon.py] *)

(** [asyncio.gather] with [return_exceptions=True]: every task runs to
    completion and its exception, if any, takes its place in the result
    list; the list follows the order of [tasks]. *)
Fixpoint gather (ts : list (M string)) : M (list (exn + string)) :=
  match ts with
  | [] => ret []
  | t :: ts' =>
      o <- catch (x <- t ;; ret (inr x)) (fun e => ret (inl e)) ;;
      os <- gather ts' ;;
      ret (o :: os)
  end.

(** [[r for r in results if isinstance(r, str)]] *)
Definition valid_results (rs : list (exn + string)) : list string :=
  flat_map (fun r => match r with inr s => [s] | inl _ => [] end) rs.

(** The report built from the gathered results. *)
Definition aggregate (rs : list (exn + string)) : string :=
  match valid_results rs with
  | [] => "No reconnaissance data collected"
  | vs => join (nl ++ nl) vs
  end.

(** The reachability probe; [%{{http_code}}] in the f-string is
    [%{http_code}]. *)
Definition probe_cmd (url : string) : string :=
  cat ["curl -s -o /dev/null -w "; dq; "%{http_code}"; dq; " --max-time 10 "; url].

(** [not http_code.strip()] *)
Definition is_blank (s : string) : bool := String.eqb (strip s) "".

(** The commands of the full batch, in the order they are appended to
    [tasks]. *)
Definition full_batch (target_ip target_url : string) : list (string * Z) :=
  (if negb (String.eqb target_ip "") && negb (startswith target_ip "http")
   then [("nmap -Pn -T4 -p 80,443,8080,8443 " ++ target_ip, 90%Z)]
   else [])
  ++ [("curl -I " ++ target_url, 30%Z);
      ("whatweb " ++ target_url ++ " || echo 'whatweb not available'", 30%Z)].

(** [target_url.replace('https://', '').replace('http://', '').split('/')[0]] *)
Definition host_of (url : string) : string :=
  split_slash_first (replace (replace url "https://" "") "http://" "").

Definition info_cmd (url : string) : string :=
  cat [nl; ind8; "echo "; dq; "DNS Lookup:"; dq; " && ";
       ind8; "dig +short "; host_of url; " 2>&1 | head -5 && ";
       ind8; "echo "; dq; dq; " && ";
       ind8; "echo "; dq; "WHOIS Info:"; dq; " && ";
       ind8; "whois "; host_of url; " 2>&1 | head -20"; nl; ind8].

Definition lines (l : list string) : string := join nl l.

Definition lightweight_header (url : string) : string :=
  lines [""; "Lightweight Reconnaissance"; "=========================="; "Target: " ++ url;
         "Status: Target is not responding or is not a live web application"; "";
         "Basic Information:"; ""].

Definition lightweight_footer : string :=
  lines [""; ""; "Note: Target appears to be offline or is not a web application.";
         "For accurate penetration testing:";
         "- Ensure the target is a live, running web application";
         "- If testing a local app, use http://localhost:PORT";
         "- If testing DVWA, deploy it first: docker-compose up -d"; ""].

(** [run_lightweight_recon(target_url)] *)
Definition run_lightweight_recon (url : string) : M string :=
  out <- catch (r <- exec_command (info_cmd url) 30 ;; ret (lightweight_header url ++ r))
               (fun e => ret (lightweight_header url ++ "Basic recon failed: " ++ str_exn e)) ;;
  ret (out ++ lightweight_footer).

(** *** [run_github_recon]

    Emoji (mis-encoded in the source) are left out of the echoed texts and
    the report, and the box-drawing banner lines are written with [=]. *)

Definition drop (n : nat) (s : string) : string := substring n (String.length s - n) s.

Fixpoint upto2 (s : string) : string :=
  match s with
  | EmptyString => EmptyString
  | String c s' => if Ascii.eqb c "/" || Ascii.eqb c "?" then EmptyString
                   else String c (upto2 s')
  end.

(** The regular expression [github\.com/([^/]+)/([^/?]+)] tried at the
    start of [s]. *)
Definition gh_match_at (s : string) : option (string * string) :=
  if startswith s "github.com/" then
    let rest := drop 11 s in
    let owner := upto slash rest in
    let after := drop (String.length owner) rest in
    if String.eqb owner "" then None
    else if startswith after "/" then
      let repo := upto2 (drop 1 after) in
      if String.eqb repo "" then None else Some (owner, repo)
    else None
  else None.

(** [re.search]: the leftmost position where the expression matches. *)
Fixpoint gh_search (s : string) : option (string * string) :=
  match gh_match_at s with
  | Some m => Some m
  | None => match s with
            | EmptyString => None
            | String _ s' => gh_search s'
            end
  end.

(** The non-ASCII characters of [run_github_recon]'s literals.  The source
    file holds them double-encoded (UTF-8 bytes read as Windows-1252 and
    saved again as UTF-8), so Python's [str] holds the mis-decoded
    characters; the model keeps the UTF-8 bytes of that [str], i.e. the
    bytes of the source file. *)
Definition u8 (l : list nat) : string := string_of_list_ascii (map ascii_of_nat l).

Fixpoint rep (n : nat) (s : string) : string :=
  match n with 0 => "" | S k => s ++ rep k s end.

Definition box_dbl : string := u8 [195;162;226;128;162].
Definition box_tl : string := box_dbl ++ u8 [226;128;157].
Definition box_tr : string := box_dbl ++ u8 [226;128;148].
Definition box_v : string := box_dbl ++ u8 [226;128;152].
Definition box_bl : string := box_dbl ++ u8 [197;161].
Definition box_top : string := box_tl ++ rep 48 box_dbl ++ box_tr.
Definition box_bottom : string := box_bl ++ rep 49 box_dbl.
Definition box_heavy : string := u8 [195;162;226;128;157].

Definition moji_check : string := u8 [195;162;197;147;226;128;166].
Definition moji_whale : string := u8 [195;176;197;184;194;179].
Definition moji_info : string := u8 [195;162;226;128;158;194;185;195;175;194;184].
Definition moji_bulb : string := u8 [195;176;197;184;226;128;153;194;161].
Definition moji_folder : string := u8 [195;176;197;184;226;128;156;226;128;154].
Definition moji_search : string := u8 [195;176;197;184;226;128;157].
Definition moji_syringe : string := u8 [195;176;197;184;226;128;153;226;128;176].
Definition moji_zap : string := u8 [195;162;197;161;194;161].
Definition moji_cross : string := u8 [195;162;197;146].
Definition moji_warn : string := u8 [195;162;197;161;194;160;195;175;194;184].
Definition moji_arrow : string := u8 [195;162;226;128;160;226;128;153].

(** The underline of the phase headers. *)
Definition rule : string := rep 48 box_heavy.

Definition gh_intro (owner repo : string) : string :=
  lines [""; box_top; box_v ++ "     AUTO-DEPLOYMENT & RECON INITIATED          " ++ box_v;
         box_bottom; "";
         "TARGET: " ++ owner ++ "/" ++ repo;
         "URL: https://github.com/" ++ owner ++ "/" ++ repo; "";
         "[PHASE 1] CLONING TARGET REPOSITORY"; rule; ""].

Definition clone_cmd (owner repo : string) : string :=
  cat [nl; ind8; "cd /tmp && "; ind8; "rm -rf "; repo; " 2>/dev/null && ";
       ind8; "git clone https://github.com/"; owner; "/"; repo; ".git --depth 1 2>&1 && ";
       ind8; "echo "; dq; moji_check; " Repository cloned successfully"; dq; nl; ind8].

Definition docker_cmd (repo : string) : string :=
  cat [nl; ind8; "cd /tmp/"; repo; " && ";
       ind8; "if [ -f "; dq; "docker-compose.yml"; dq; " ]; then"; nl;
       ind12; "echo "; dq; moji_whale; " Docker Compose detected"; dq; nl;
       ind12; "cat docker-compose.yml | grep -E "; dq; "ports:|image:"; dq; " | head -10"; nl;
       ind8; "elif [ -f "; dq; "Dockerfile"; dq; " ]; then"; nl;
       ind12; "echo "; dq; moji_whale; " Dockerfile detected"; dq; nl;
       ind12; "cat Dockerfile | head -10"; nl;
       ind8; "else"; nl;
       ind12; "echo "; dq; moji_info; "  No Docker configuration found"; dq; nl;
       ind8; "fi"; nl; ind8].

Definition port_cmd (repo : string) : string :=
  cat [nl; ind8; "cd /tmp/"; repo; " && ";
       ind8; "if [ -f "; dq; "docker-compose.yml"; dq; " ]; then"; nl;
       ind12; "grep -oP '\d+:' docker-compose.yml | head -1 | tr -d ':'"; nl;
       ind8; "else"; nl;
       ind12; "echo "; dq; "8080"; dq; nl;
       ind8; "fi"; nl; ind8].

Definition analysis_cmd (repo : string) : string :=
  cat [nl; ind8; "cd /tmp/"; repo; " && ";
       ind8; "echo "; dq; moji_folder; " Repository structure:"; dq; " && ";
       ind8; "find . -maxdepth 2 -type f -name "; dq; "*.php"; dq; " -o -name "; dq; "*.js";
       dq; " -o -name "; dq; "*.py"; dq; " | head -15 && ";
       ind8; "echo "; dq; dq; " && ";
       ind8; "echo "; dq; moji_search; " Searching for vulnerability patterns..."; dq; " && ";
       ind8; "echo "; dq; dq; " && ";
       ind8; "echo "; dq; moji_syringe; " SQL Injection patterns:"; dq; " && ";
       ind8; "grep -r "; dq; "mysql_query\|mysqli_query\|\$_GET\|\$_POST"; dq;
       " --include="; dq; "*.php"; dq; " 2>/dev/null | head -5 || echo "; dq; "   None detected";
       dq; " && ";
       ind8; "echo "; dq; dq; " && ";
       ind8; "echo "; dq; moji_zap; " XSS patterns:"; dq; " && ";
       ind8; "grep -r "; dq; "echo.*\$_"; dq; " --include="; dq; "*.php"; dq;
       " 2>/dev/null | head -5 || echo "; dq; "   None detected"; dq; nl; ind8].

Definition phase_header (title : string) : string := title ++ nl ++ rule ++ nl.

(** An f-string renders [None] as [None]. *)
Definition str_port (p : option string) : string :=
  match p with Some s => s | None => "None" end.

Definition phase3_text (owner repo : string) (port : option string) : string :=
  phase_header "[PHASE 3] DEPLOYMENT STATUS"
  ++ moji_info ++ "  E2B cloud sandboxes don't support Docker containers" ++ nl
  ++ moji_bulb ++ " This is a code-only analysis - no live deployment" ++ nl
  ++ nl ++ "TO TEST LIVE:" ++ nl
  ++ "  1. Clone locally: git clone https://github.com/" ++ owner ++ "/" ++ repo ++ ".git" ++ nl
  ++ "  2. Deploy: cd " ++ repo ++ " && docker-compose up -d" ++ nl
  ++ "  3. Add as target with URL: http://localhost:" ++ str_port port ++ nl ++ nl.

Definition gh_summary (owner repo : string) (port : option string) : string :=
  lines [""; ""; box_top; box_v ++ "           AUTO-DEPLOYMENT SUMMARY              " ++ box_v;
         box_bottom; "";
         "Repository: " ++ owner ++ "/" ++ repo; ""]
  ++ lines [moji_warn ++ "  STATUS: CODE ANALYSIS ONLY";
            moji_bulb ++ " E2B CLOUD MODE: No Docker container deployment"; "";
            "FINDINGS:"; "  " ++ moji_arrow ++ " Repository successfully cloned and analyzed";
            "  " ++ moji_arrow ++ " Vulnerability patterns detected in code";
            "  " ++ moji_arrow ++ " Security recommendations generated"; "";
            "TO TEST LIVE (Optional):";
            "  1. Clone locally: git clone https://github.com/" ++ owner ++ "/" ++ repo ++ ".git";
            "  2. Deploy: cd " ++ repo ++ " && docker-compose up -d (requires local Docker)";
            "  3. Add as new target: http://localhost:" ++ str_port port; "";
            "NEXT PHASE:"; "The AutoCTF agent will proceed with:";
            "  " ++ moji_arrow ++ " Static code vulnerability analysis";
            "  " ++ moji_arrow ++ " Security pattern detection";
            "  " ++ moji_arrow ++ " Automated patch generation";
            "  " ++ moji_arrow ++ " GitHub PR creation"; ""].

(** An [await exec_command(...)] inside a [try] whose handler needs the
    report accumulated so far. *)
Definition try_exec (cmd : string) (t : Z) : M (exn + string) :=
  catch (x <- exec_command cmd t ;; ret (inr x)) (fun e => ret (inl e)).

Definition deploy_failed (acc : string) (e : exn) : string :=
  acc ++ nl ++ nl ++ moji_cross ++ " DEPLOYMENT FAILED: " ++ str_exn e.

(** The [try] block of [run_github_recon]: the report so far and
    [deployment_port]. *)
Definition github_phases (owner repo : string) (out0 : string) : M (string * option string) :=
  r1 <- try_exec (clone_cmd owner repo) 60 ;;
  match r1 with
  | inl e => ret (deploy_failed out0 e, None)
  | inr res =>
      let o1 := out0 ++ res ++ nl ++ nl ++ phase_header "[PHASE 2] DEPLOYMENT DETECTION" in
      r2 <- try_exec (docker_cmd repo) 30 ;;
      match r2 with
      | inl e => ret (deploy_failed o1 e, None)
      | inr dk =>
          let o2 := o1 ++ dk ++ nl ++ nl in
          r3 <- try_exec (port_cmd repo) 10 ;;
          let port := match r3 with
                      | inr p => if String.eqb (strip p) "" then "8080" else strip p
                      | inl _ => "8080"
                      end in
          let o3 := o2 ++ phase3_text owner repo (Some port)
                       ++ phase_header "[PHASE 4] CODE ANALYSIS" in
          r4 <- try_exec (analysis_cmd repo) 30 ;;
          match r4 with
          | inl e => ret (deploy_failed o3 e, Some port)
          | inr a => ret (o3 ++ a, Some port)
          end
      end
  end.

(** [run_github_recon(github_url)] *)
Definition run_github_recon (github_url : string) : M string :=
  match gh_search github_url with
  | None => ret ("Invalid GitHub URL: " ++ github_url)
  | Some (owner, repo0) =>
      let repo := upto "?" repo0 in
      p <- github_phases owner repo (gh_intro owner repo) ;;
      ret (fst p ++ gh_summary owner repo (snd p))
  end.

(** [run_recon(target_ip, target_url)] *)
Definition run_recon (target_ip target_url : string) : M string :=
  if contains "github.com" target_url then run_github_recon target_url
  else
    o <- catch (code <- exec_command (probe_cmd target_url) 15 ;;
                if contains "000" code || is_blank code
                then (r <- run_lightweight_recon target_url ;; ret (Some r))
                else ret None)
               (fun _ => r <- run_lightweight_recon target_url ;; ret (Some r)) ;;
    match o with
    | Some r => ret r
    | None =>
        catch (results <- gather (map (fun ct => exec_command (fst ct) (snd ct))
                                      (full_batch target_ip target_url)) ;;
               ret (aggregate results))
              (fun e => ret ("Reconnaissance failed: " ++ str_exn e))
    end.

(** The commands [run_github_recon] sends for a URL, in its order:
    clone, Docker detection, port detection, code analysis. *)
Definition github_commands (url : string) : list (string * Z) :=
  match gh_search url with
  | None => []
  | Some (owner, repo0) =>
      let repo := upto "?" repo0 in
      [(clone_cmd owner repo, 60%Z); (docker_cmd repo, 30%Z); (port_cmd repo, 10%Z);
       (analysis_cmd repo, 30%Z)]
  end.

(* ------------------------------------------------------------------ *)
(** ** Concurrent [get_or_create_sandbox] calls on one manager

    [asyncio] runs a coroutine without interruption up to its next
    suspending [await].  A call of [get_or_create_sandbox] suspends at
    [AsyncSandbox.create] and at each of the three [commands.run] of
    [install_security_tools]; [close_sandbox] awaits nothing and runs in the
    segment of its caller.  The scheduler resumes any suspended call whose
    remote request has completed; the remote answer is consumed when the
    call resumes. *)

Inductive task_pc :=
| TStart                                 (** not started *)
| TAwaitCreate                           (** suspended in [AsyncSandbox.create] *)
| TAwaitInstall (k : nat) (sb : option nat) (** suspended in the [k]-th install command *)
| TDone (h : option nat)                 (** returned [self.sandbox] *)
| TFailed (e : exn).                     (** raised *)

Definition install_script (k : nat) : string * Z :=
  match k with
  | 0 => (update_cmd, 120%Z)
  | 1 => (install_cmd, 300%Z)
  | _ => (verify_cmd, 30%Z)
  end.

(** From the entry of [get_or_create_sandbox] to its first suspension. *)
Definition seg_start : M task_pc :=
  w <- get ;;
  if should_recreate w
  then close_sandbox ;;; ret TAwaitCreate
  else ret (TDone (sandbox w)).

(** [install_security_tools] up to the issue of its first command. *)
Definition install_first : M task_pc :=
  w <- get ;;
  match sandbox w with
  | None => ret (TFailed (RuntimeError "No sandbox available for tool installation"))
  | Some _ => modify (log_event EProvision) ;;; sb <- self_sandbox ;; ret (TAwaitInstall 0 sb)
  end.

(** Resumption after [AsyncSandbox.create]. *)
Definition seg_create : M task_pc :=
  c <- catch (id <- sandbox_create ;;
              w <- get ;;
              modify (set_mgr (Some id) (Some (clock w)) 0%Z) ;;;
              ret (inr id))
             (fun e => ret (inl e)) ;;
  match c with
  | inl e => ret (TFailed (RuntimeError ("Failed to create E2B sandbox: " ++ str_exn e)))
  | inr _ => install_first
  end.

Definition finish_lease : M task_pc := w <- get ;; ret (TDone (sandbox w)).

(** Resumption after the [k]-th command of [install_security_tools]. *)
Definition seg_install (k : nat) (sb : option nat) : M task_pc :=
  catch (_ <- commands_run sb (fst (install_script k)) (snd (install_script k)) OProvision ;;
         if Nat.ltb k 2
         then (sb' <- self_sandbox ;;
               match sb' with
               | None => raise AttributeError
               | Some _ => ret (TAwaitInstall (S k) sb')
               end)
         else finish_lease)
        (fun _ => finish_lease).

Definition step_task (p : task_pc) : M task_pc :=
  match p with
  | TStart => seg_start
  | TAwaitCreate => seg_create
  | TAwaitInstall k sb => seg_install k sb
  | TDone h => ret (TDone h)
  | TFailed e => ret (TFailed e)
  end.

Fixpoint set_nth {A} (i : nat) (x : A) (l : list A) : list A :=
  match l, i with
  | [], _ => []
  | _ :: l', O => x :: l'
  | y :: l', S i' => y :: set_nth i' x l'
  end.

(** The scheduler resumes task [i]. *)
Definition sched_step (env : nat -> resp) (i : nat) (c : list task_pc * world)
  : list task_pc * world :=
  match nth_error (fst c) i with
  | None => c
  | Some p =>
      match step_task p env (snd c) with
      | (inr p', w') => (set_nth i p' (fst c), w')
      | (inl e, w') => (set_nth i (TFailed e) (fst c), w')
      end
  end.

Fixpoint run_sched (env : nat -> resp) (s : list nat) (c : list task_pc * world)
  : list task_pc * world :=
  match s with
  | [] => c
  | i :: s' => run_sched env s' (sched_step env i c)
  end.

Definition resp_ok (r : resp) : bool :=
  match r with ROk _ => true | _ => false end.

(* ------------------------------------------------------------------ *)
(** ** Sequences of leases and commands on one manager *)

Inductive op := OpLease | OpRun (command : string) (timeout : Z).

(** The handle is neither older than [max_sandbox_age] nor used up. *)
Definition within_limits (w : world) : bool :=
  negb (expired w) && (command_count w <? max_commands w)%Z.

(** Runs [ops] in order; returns the handles the leases returned and
    whether every operation started within the limits. *)
Fixpoint run_ops (ops : list op) : M (list (option nat) * bool) :=
  match ops with
  | [] => ret ([], true)
  | o :: os =>
      w <- get ;;
      hs <- match o with
            | OpLease => h <- get_or_create_sandbox ;; ret [h]
            | OpRun c t => _ <- run_command c t ;; ret []
            end ;;
      r <- run_ops os ;;
      ret ((hs ++ fst r)%list, within_limits w && snd r)
  end.

Fixpoint run_commands (cs : list (string * Z)) : M unit :=
  match cs with
  | [] => ret tt
  | (c, t) :: cs' => _ <- run_command c t ;; run_commands cs'
  end.

(* ------------------------------------------------------------------ *)
(** ** Views of the trace *)

(** The [exec_command] calls, in order. *)
Definition execs (tr : list event) : list (string * Z) :=
  flat_map (fun ev => match ev with EExec c t => [(c, t)] | _ => [] end) tr.

(** Events of a tool installation. *)
Definition prov_event (ev : event) : Prop :=
  match ev with
  | ERun _ _ _ OProvision => True
  | _ => False
  end.

(** Did the reachability probe report a dead target (or fail)? *)
Definition probe_dead (r : exn + string) : bool :=
  match r with
  | inl _ => true
  | inr code => contains "000" code || is_blank code
  end.

(* ------------------------------------------------------------------ *)
(** ** Sample inputs *)

Definition ok_result : cmd_result := mkResult "" "" 0.
Definition env_ok : nat -> resp := fun _ => ROk ok_result.

(** A manager with no sandbox (limits of [__init__]: one hour, 100
    commands), the clock at 1000. *)
Definition w_empty : world := mkWorld None None 0 3600 100 None 1000 0 0 [].

(** A manager holding sandbox [0], created at 900, [n] commands used. *)
Definition w_live (n : Z) : world :=
  mkWorld (Some 0) (Some 900%Z) n 3600 100 None 1000 1 1 [].

(** No manager sandbox; [exec_client]'s [_sandbox] holds sandbox [5]. *)
Definition w_cached : world := mkWorld None None 0 3600 100 (Some 5) 1000 6 0 [].

(** Sandbox [0] created at 900, the clock at 4500: exactly one hour old. *)
Definition w_boundary : world := mkWorld (Some 0) (Some 900%Z) 0 3600 100 None 4500 1 1 [].

(* ------------------------------------------------------------------ *)
(** ** Predicates on computations and further sample inputs *)

Definition frame (w w' : world) : Prop :=
  sandbox w' = sandbox w /\ created_at w' = created_at w /\
  command_count w' = command_count w /\ max_sandbox_age w' = max_sandbox_age w /\
  max_commands w' = max_commands w /\ g_sandbox w' = g_sandbox w /\
  clock w' = clock w /\ next_id w' = next_id w.

Definition keeps {A} (m : M A) : Prop := forall env w, frame w (snd (m env w)).

Definition yields {A} (P : A -> Prop) (m : M A) : Prop :=
  forall env w y w', m env w = (inr y, w') -> P y.

Definition env_rate : nat -> resp :=
  fun i => match i with 1 => RExn "rate limit exceeded" | _ => ROk ok_result end.

Definition env_quota : nat -> resp := fun _ => RExn "quota exceeded".

(** [quiet m]: [m] dispatches nothing through [exec_command]. *)
Definition quiet {A} (m : M A) : Prop :=
  forall env w, execs (trace (snd (m env w))) = execs (trace w).

(** [safe m]: [m] never raises. *)
Definition safe {A} (m : M A) : Prop :=
  forall env w, exists x, fst (m env w) = inr x.

(** [rt_only m]: an exception raised by [m] is a [RuntimeError]. *)
Definition rt_only {A} (m : M A) : Prop :=
  forall env w e w', m env w = (inl e, w') -> exists msg, e = RuntimeError msg.

Definition batch_tasks (cts : list (string * Z)) : list (M string) :=
  map (fun ct => exec_command (fst ct) (snd ct)) cts.

Definition r127 : cmd_result := mkResult "" "sh: nmap: not found" 127.

Definition env127 : nat -> resp := fun _ => ROk r127.

Definition env_timeout : nat -> resp := fun _ => RTimeout.

(** Every dispatch exits with code 1 after writing to both streams. *)
Definition env_fail1 : nat -> resp := fun _ => ROk (mkResult "out" "err" 1).

Definition env_live : nat -> resp :=
  fun i => match i with 4 => ROk (mkResult "200" "" 0) | _ => ROk (mkResult "ok" "" 0) end.

Definition env_batch_down : nat -> resp :=
  fun i => match i with
           | 4 => ROk (mkResult "200" "" 0)
           | 5 | 6 => RExn "connection reset"
           | _ => ROk ok_result
           end.

Definition verified_stdout : string :=
  cat ("Checking installed tools:" :: nl ::
       flat_map (fun t => ["  "; check_mark; " "; t; nl])
                ["nmap"; "nikto"; "gobuster"; "sqlmap"; "curl"; "wget"; "git"]).

Definition env_verified : nat -> resp := fun _ => ROk (mkResult verified_stdout "" 0).

(* ------------------------------------------------------------------ *)
(** ** [SandboxManager.get_sandbox_info]

    The clock is kept in whole seconds, so [int(time.time() - created_at)]
    is the plain difference; [age / 60] is a true division, a rational. *)

Record sandbox_info := mkInfo {
  i_active : bool;
  i_sandbox_id : option nat;
  i_age_seconds : Z;
  i_command_count : Z;
  i_age_minutes : option QArith_base.Q;      (** key present only for an active sandbox *)
  i_will_reset_in : option Z     (** key present only for an active sandbox *)
}.

(** [int(time.time() - self.created_at) if self.created_at else 0] *)
Definition info_age (w : world) : Z :=
  match created_at w with
  | Some c => if (c =? 0)%Z then 0%Z else (clock w - c)%Z
  | None => 0%Z
  end.

Definition sandbox_info_of (w : world) : sandbox_info :=
  match sandbox w with
  | None => mkInfo false None 0 0 None None
  | Some id =>
      let age := info_age w in
      mkInfo true (Some id) age (command_count w)
             (Some (QArith_base.Qdiv (QArith_base.inject_Z age) (QArith_base.inject_Z 60)))
             (Some (Z.max 0 (max_sandbox_age w - age)))
  end.

Definition get_sandbox_info : M sandbox_info := w <- get ;; ret (sandbox_info_of w).

(* ------------------------------------------------------------------ *)
(** ** The module-level manager: [get_manager], [run_in_sandbox], [cleanup]

    The global [_manager] is either [None] or the one [SandboxManager],
    whose fields live in the [world]; the boolean says whether [_manager] is
    set.  [__init__] reads [E2B_API_KEY] (an unset or empty variable is
    falsy) and raises [ValueError] without it. *)

Inductive top_exn :=
| TopExn (e : exn)
| ValueError (msg : string).

Definition MG (A : Type) : Type :=
  option string -> (nat -> resp) -> bool * world -> (top_exn + A) * (bool * world).

Definition retG {A} (x : A) : MG A := fun _ _ s => (inr x, s).

Definition bindG {A B} (m : MG A) (k : A -> MG B) : MG B :=
  fun key env s =>
    match m key env s with
    | (inl e, s') => (inl e, s')
    | (inr x, s') => k x key env s'
    end.

(** An [await] of a manager method. *)
Definition liftG {A} (m : M A) : MG A :=
  fun _ env s =>
    match m env (snd s) with
    | (inl e, w') => (inl (TopExn e), (fst s, w'))
    | (inr x, w') => (inr x, (fst s, w'))
    end.

Definition api_key_ok (key : option string) : bool :=
  match key with
  | Some k => negb (String.eqb k "")
  | None => false
  end.

(** The fields set by [SandboxManager.__init__]. *)
Definition fresh_manager (w : world) : world :=
  mkWorld None None 0 3600 100 (g_sandbox w) (clock w) (next_id w) (ncalls w) (trace w).

Definition missing_key_msg : string :=
  "E2B_API_KEY not found in environment variables. Add it to your .env file.".

(** [get_manager()] *)
Definition get_manager : MG unit :=
  fun key _ s =>
    if fst s then (inr tt, s)
    else if api_key_ok key then (inr tt, (true, fresh_manager (snd s)))
    else (inl (ValueError missing_key_msg), s).

(** [run_in_sandbox(command, timeout)] *)
Definition run_in_sandbox (command : string) (timeout : Z) : MG string :=
  bindG get_manager (fun _ =>
  bindG (liftG (run_command command timeout)) (fun result =>
  retG (r_output result))).

(** [cleanup()] *)
Definition cleanup : MG unit :=
  fun key env s =>
    if fst s
    then bindG (liftG close_sandbox) (fun _ _ _ s' => (inr tt, (false, snd s'))) key env s
    else (inr tt, s).

(* ------------------------------------------------------------------ *)
(** ** [exec_client.close_sandbox]

    [await _sandbox.close()] is a remote call: it consumes an answer of the
    oracle; the trace records no event for it.  The bare [except] swallows
    whatever it raises. *)

Definition sandbox_close (sb : nat) : M unit :=
  fun env w =>
    let w1 := mkWorld (sandbox w) (created_at w) (command_count w) (max_sandbox_age w)
                      (max_commands w) (g_sandbox w) (clock w) (next_id w)
                      (S (ncalls w)) (trace w) in
    match env (ncalls w) with
    | ROk _ => (inr tt, w1)
    | RTimeout => (inl TimeoutError, w1)
    | RExn m => (inl (TransportError m), w1)
    end.

Definition close_sandbox_x : M unit :=
  w <- get ;;
  match g_sandbox w with
  | Some sb => catch (sandbox_close sb) (fun _ => ret tt) ;;; modify (set_g_sandbox None)
  | None => ret tt
  end.

(* ------------------------------------------------------------------ *)
(** ** Further predicates on computations *)

(** [grows m]: [m] only appends to the trace. *)
Definition grows {A} (m : M A) : Prop :=
  forall env w, exists l, trace (snd (m env w)) = (trace w ++ l)%list.

(** The part of a URL after the host: empty or a path. *)
Definition path_start (r : string) : Prop := r = "" \/ exists t, r = ("/" ++ t)%string.

(* ------------------------------------------------------------------ *)
(** * Proofs *)

Local Open Scope list_scope.

Lemma frame_refl w : frame w w.
Proof. repeat split. Qed.

Lemma frame_trans w1 w2 w3 : frame w1 w2 -> frame w2 w3 -> frame w1 w3.
Proof.
  unfold frame; intros (?&?&?&?&?&?&?&?) (?&?&?&?&?&?&?&?); repeat split; congruence.
Qed.

Lemma keeps_ret {A} (x : A) : keeps (ret x).
Proof. intros env w; apply frame_refl. Qed.

Lemma keeps_raise {A} e : keeps (A := A) (raise e).
Proof. intros env w; apply frame_refl. Qed.

Lemma keeps_get : keeps get.
Proof. intros env w; apply frame_refl. Qed.

Lemma keeps_bind {A B} (m : M A) (k : A -> M B) :
  keeps m -> (forall x, keeps (k x)) -> keeps (bind m k).
Proof.
  intros Hm Hk env w; unfold bind.
  specialize (Hm env w); destruct (m env w) as [[e|x] w'] eqn:E; simpl in *; [exact Hm|].
  eapply frame_trans; [exact Hm | apply Hk].
Qed.

Lemma keeps_catch {A} (m : M A) h :
  keeps m -> (forall e, keeps (h e)) -> keeps (catch m h).
Proof.
  intros Hm Hh env w; unfold catch.
  specialize (Hm env w); destruct (m env w) as [[e|x] w'] eqn:E; simpl in *; [|exact Hm].
  eapply frame_trans; [exact Hm | apply Hh].
Qed.

Lemma keeps_log_event ev : keeps (modify (log_event ev)).
Proof. intros env w; repeat split. Qed.

Lemma keeps_commands_run sb c t o : keeps (commands_run sb c t o).
Proof.
  intros env w; unfold commands_run; destruct sb; [|apply frame_refl].
  destruct (env (ncalls w)); repeat split.
Qed.

Lemma keeps_self_sandbox : keeps self_sandbox.
Proof. apply keeps_bind; [apply keeps_get | intros; apply keeps_ret]. Qed.

Create HintDb keepsdb.

#[local] Hint Resolve keeps_ret keeps_raise keeps_get keeps_bind keeps_catch
  keeps_log_event keeps_commands_run keeps_self_sandbox : keepsdb.

Lemma keeps_install : keeps install_security_tools.
Proof.
  unfold install_security_tools; apply keeps_bind; [apply keeps_get|intros w].
  destruct (sandbox w); eauto 20 with keepsdb.
Qed.

Lemma install_spec env w h :
  sandbox w = Some h ->
  exists l w', install_security_tools env w = (inr tt, w') /\ frame w w' /\
               trace w' = trace w ++ EProvision :: l /\ Forall prov_event l.
Proof.
  intros Hsb; destruct w; cbn in Hsb; subst.
  unfold install_security_tools, bind, get, catch, modify, self_sandbox, ret, commands_run,
    log_event, log_call.
  cbn.
  repeat (match goal with |- context [env ?i] => destruct (env i) end; cbn);
  (eexists _, _; split; [reflexivity|]; split; [repeat split|];
   split; [cbn; rewrite <- !app_assoc; reflexivity | repeat constructor]).
Qed.

Lemma lease_keep env w h :
  sandbox w = Some h -> within_limits w = true ->
  get_or_create_sandbox env w = (inr (Some h), w).
Proof.
  intros Hsb Hw.
  assert (Hs : should_recreate w = false).
  { unfold within_limits in Hw; apply andb_prop in Hw as [H1 H2].
    unfold should_recreate; rewrite Hsb; apply negb_true_iff in H1; rewrite H1; cbn.
    apply Z.leb_gt, Z.ltb_lt; exact H2. }
  unfold get_or_create_sandbox, bind, get, self_sandbox, ret; cbn.
  rewrite Hs; cbn; rewrite Hsb; reflexivity.
Qed.

Lemma lease_result env w sb w1 :
  get_or_create_sandbox env w = (inr sb, w1) -> sandbox w1 = sb.
Proof.
  unfold get_or_create_sandbox, bind at 1, get.
  destruct (should_recreate w).
  - unfold bind at 1.
    destruct ((close_sandbox;;; create_sandbox;;; install_security_tools) env w)
      as [[e|u] w'].
    + discriminate.
    + unfold self_sandbox, bind, get, ret; intros H; inversion H; reflexivity.
  - unfold bind, ret, self_sandbox, get; intros H; inversion H; reflexivity.
Qed.

Lemma ncalls_incr w : ncalls (incr_count w) = ncalls w.
Proof. reflexivity. Qed.

Lemma sandbox_incr w : sandbox (incr_count w) = sandbox w.
Proof. reflexivity. Qed.

Lemma ncalls_log ev w : ncalls (log_call ev w) = S (ncalls w).
Proof. reflexivity. Qed.

Lemma sandbox_log ev w : sandbox (log_call ev w) = sandbox w.
Proof. reflexivity. Qed.

(** The command after a lease that returned handle [h]. *)
Lemma run_command_after_lease cmd t env w w1 h :
  get_or_create_sandbox env w = (inr (Some h), w1) ->
  run_command cmd t env w =
  let w2 := log_call (ERun h cmd t OUser) (incr_count w1) in
  match env (ncalls w1) with
  | ROk r =>
      if (exit_code r =? 127)%Z then
        match split_first cmd with
        | None => (inr (failure_result IndexError), w2)
        | Some tool =>
            match install_security_tools env w2 with
            | (inl e, w3) =>
                (inr (match e with
                      | TimeoutError => timeout_result cmd t
                      | _ => failure_result e
                      end), w3)
            | (inr _, w3) =>
                let w4 := log_call (ERun h cmd t OUser) w3 in
                match env (ncalls w3) with
                | ROk r2 =>
                    if (exit_code r2 =? 127)%Z
                    then (inr (failure_result (RuntimeError (tool_unavailable_msg tool))), w4)
                    else (inr (result_of r2), w4)
                | RTimeout => (inr (timeout_result cmd t), w4)
                | RExn m => (inr (failure_result (TransportError m)), w4)
                end
            end
        end
      else (inr (result_of r), w2)
  | RTimeout => (inr (timeout_result cmd t), w2)
  | RExn m => (inr (failure_result (TransportError m)), w2)
  end.
Proof.
  intros H.
  unfold run_command, catch, run_command_body, bind at 1.
  rewrite H.
  unfold bind, modify, commands_run, ret, raise.
  cbn -[log_call incr_count install_security_tools].
  rewrite ncalls_incr.
  destruct (env (ncalls w1)) as [r| |m]; cbn -[log_call incr_count install_security_tools];
    try reflexivity.
  destruct (exit_code r =? 127)%Z; cbn -[log_call incr_count install_security_tools];
    try reflexivity.
  destruct (split_first cmd) as [tool|]; cbn -[log_call incr_count install_security_tools];
    try reflexivity.
  destruct (install_security_tools env _) as [[e|u] w3];
    cbn -[log_call incr_count install_security_tools]; try reflexivity.
  - destruct e; reflexivity.
  - destruct (env (ncalls w3)) as [r2| |m]; cbn; try reflexivity.
    destruct (exit_code r2 =? 127)%Z; reflexivity.
Qed.

Lemma frame_log ev w : frame w (log_call ev w).
Proof. repeat split. Qed.

Lemma run_command_after_lease_none cmd t env w w1 :
  get_or_create_sandbox env w = (inr None, w1) ->
  run_command cmd t env w = (inr (failure_result AttributeError), incr_count w1).
Proof.
  intros H; unfold run_command, catch, run_command_body, bind at 1; rewrite H; reflexivity.
Qed.

Lemma run_command_lease_raises cmd t env w w1 e :
  get_or_create_sandbox env w = (inl e, w1) ->
  run_command cmd t env w =
  (inr (match e with TimeoutError => timeout_result cmd t | _ => failure_result e end), w1).
Proof.
  intros H; unfold run_command, catch, run_command_body, bind at 1; rewrite H.
  destruct e; reflexivity.
Qed.

(** After a successful lease, [run_command] leaves every field of the
    manager as the lease left it, except [command_count], one higher. *)
Lemma run_command_frame cmd t env w sb w1 :
  get_or_create_sandbox env w = (inr sb, w1) ->
  frame (incr_count w1) (snd (run_command cmd t env w)).
Proof.
  intros H; destruct sb as [h|].
  - rewrite (run_command_after_lease cmd t env w w1 h H); cbn zeta.
    destruct (env (ncalls w1)) as [r| |m]; try apply frame_log.
    destruct (exit_code r =? 127)%Z; [|apply frame_log].
    destruct (split_first cmd) as [tool|]; [|apply frame_log].
    pose proof (keeps_install env (log_call (ERun h cmd t OUser) (incr_count w1))) as Hk.
    destruct (install_security_tools env _) as [[e|u] w3]; cbn in Hk.
    + eapply frame_trans; [apply frame_log | exact Hk].
    + assert (Hf : frame (incr_count w1) w3)
        by (eapply frame_trans; [apply frame_log | exact Hk]).
      destruct (env (ncalls w3)) as [r2| |m];
        try (destruct (exit_code r2 =? 127)%Z);
        (eapply frame_trans; [exact Hf | apply frame_log]).
  - rewrite (run_command_after_lease_none cmd t env w w1 H); apply frame_refl.
Qed.

Lemma run_command_total cmd t env w : exists r, fst (run_command cmd t env w) = inr r.
Proof.
  unfold run_command, catch.
  destruct (run_command_body cmd t env w) as [[e|r] w']; [destruct e|]; eexists; reflexivity.
Qed.

(** The tool-missing path: one dispatch, one installation, one retry. *)
Lemma run_command_127 cmd tool t env w w1 h r1 :
  split_first cmd = Some tool ->
  get_or_create_sandbox env w = (inr (Some h), w1) ->
  env (ncalls w1) = ROk r1 -> exit_code r1 = 127%Z ->
  exists l w3,
    Forall prov_event l /\ frame (incr_count w1) w3 /\
    trace w3 = trace w1 ++ ERun h cmd t OUser :: EProvision :: l /\
    run_command cmd t env w =
    (match env (ncalls w3) with
     | ROk r2 =>
         if (exit_code r2 =? 127)%Z
         then inr (failure_result (RuntimeError (tool_unavailable_msg tool)))
         else inr (result_of r2)
     | RTimeout => inr (timeout_result cmd t)
     | RExn m => inr (failure_result (TransportError m))
     end, log_call (ERun h cmd t OUser) w3).
Proof.
  intros Hs H He Hx.
  assert (Hsb : sandbox (log_call (ERun h cmd t OUser) (incr_count w1)) = Some h)
    by (rewrite sandbox_log, sandbox_incr; exact (lease_result env w _ w1 H)).
  destruct (install_spec env _ h Hsb) as (l & w3 & Hi & Hf & Ht & Hl).
  exists l, w3; split; [exact Hl|]; split.
  { eapply frame_trans; [apply frame_log | exact Hf]. }
  split.
  { rewrite Ht; cbn; rewrite <- app_assoc; reflexivity. }
  rewrite (run_command_after_lease cmd t env w w1 h H); cbn zeta.
  rewrite He, Hx, Hs; cbn -[install_security_tools log_call incr_count].
  rewrite Hi.
  destruct (env (ncalls w3)) as [r2| |m]; try destruct (exit_code r2 =? 127)%Z; reflexivity.
Qed.

Lemma yields_bind {A B} (P : B -> Prop) (m : M A) (k : A -> M B) :
  (forall x, yields P (k x)) -> yields P (bind m k).
Proof.
  intros Hk env w y w'; unfold bind.
  destruct (m env w) as [[e|x] w1]; [discriminate | apply Hk].
Qed.

Lemma yields_ret {A} (P : A -> Prop) x : P x -> yields P (ret x).
Proof. intros Hx env w y w' H; inversion H; subst; exact Hx. Qed.

Lemma body_consistent cmd t :
  yields (fun r => r_success r = (r_exit_code r =? 0)%Z) (run_command_body cmd t).
Proof.
  unfold run_command_body.
  repeat (apply yields_bind; intros ?).
  apply yields_ret; reflexivity.
Qed.




(** [exec_command] once its [get_sandbox] returned [sb]: the answer to the
    dispatch decides the rest. *)
Lemma exec_command_answer cmd t env w sb w1 :
  get_sandbox env (log_event (EExec cmd t) w) = (inr (Some sb), w1) ->
  (forall r, env (ncalls w1) = ROk r -> (exit_code r =? 127)%Z = false ->
     exec_command cmd t env w =
     (inr (stdout r ++ nl ++ stderr r)%string, log_call (ERun sb cmd t OUser) w1)) /\
  (forall e, (env (ncalls w1) = RTimeout /\ e = TimeoutError) \/
             (exists m, env (ncalls w1) = RExn m /\ e = TransportError m) ->
     exec_command cmd t env w =
     (inl (RuntimeError ("Command execution failed: " ++ str_exn e)%string),
      log_call (ERun sb cmd t OUser) w1)).
Proof.
  intros H; set (w0 := log_event (EExec cmd t) w) in H.
  unfold exec_command.
  remember get_sandbox as G eqn:HG.
  unfold catch, bind, modify, ret, raise.
  fold w0; rewrite H.
  unfold commands_run.
  split.
  - intros r Hr H127; rewrite Hr, H127; reflexivity.
  - intros e [[Ht ->] | (m & Hm & ->)]; [rewrite Ht | rewrite Hm]; reflexivity.
Qed.


(** [catch (x <- m ;; ret (inr x)) (fun e => ret (inl e))] records the
    outcome of [m] without raising. *)
Lemma attempt_spec {A} (m : M A) env w :
  catch (x <- m ;; ret (inr x)) (fun e => ret (inl e)) env w = (inr (fst (m env w)), snd (m env w)).
Proof. unfold catch, bind, ret; destruct (m env w) as [[e|x] w']; reflexivity. Qed.

Lemma gather_cons t ts env w :
  gather (t :: ts) env w =
  match gather ts env (snd (t env w)) with
  | (inl e, w2) => (inl e, w2)
  | (inr os, w2) => (inr (fst (t env w) :: os), w2)
  end.
Proof.
  cbn [gather]; unfold bind at 1; rewrite attempt_spec.
  unfold bind, ret; destruct (gather ts env (snd (t env w))) as [[e|os] w2]; reflexivity.
Qed.


(** C4: after a successful lease, one call of [run_command] raises
    [command_count] by exactly one, whatever the outcome, also when the
    tool-missing path dispatches the command a second time. *)
Theorem command_count_once cmd t env w sb w1 :
  get_or_create_sandbox env w = (inr sb, w1) ->
  command_count (snd (run_command cmd t env w)) = (command_count w1 + 1)%Z.
Proof.
  intros H; destruct (run_command_frame cmd t env w sb w1 H) as (_ & _ & Hc & _).
  rewrite Hc; reflexivity.
Qed.


(** C10: [run_command] always returns a result, never an exception, and
    its [success] field is [exit_code == 0]; when the retry of the
    tool-missing path also exits with 127, the internal error becomes a
    failure result with exit code -1.  The first word of the command is
    taken as Python's [str.split()] does ([split_first]); a command with no
    word fails with the [IndexError] of [cmd.split()[0]], caught too. *)
Theorem run_command_never_raises cmd t env w :
  (exists r, fst (run_command cmd t env w) = inr r /\ r_success r = (r_exit_code r =? 0)%Z) /\
  (forall tool w1 h r1, split_first cmd = Some tool ->
     get_or_create_sandbox env w = (inr (Some h), w1) ->
     env (ncalls w1) = ROk r1 -> exit_code r1 = 127%Z ->
     forall r2, env (pred (ncalls (snd (run_command cmd t env w)))) = ROk r2 ->
     exit_code r2 = 127%Z ->
     fst (run_command cmd t env w) = inr (failure_result (RuntimeError (tool_unavailable_msg tool)))
     /\ r_exit_code (failure_result (RuntimeError (tool_unavailable_msg tool))) = (-1)%Z).
Proof.
  split.
  - unfold run_command, catch.
    destruct (run_command_body cmd t env w) as [[e|r] w'] eqn:E.
    + destruct e; eexists; split; reflexivity.
    + exists r; split; [reflexivity|]. exact (body_consistent cmd t env w r w' E).
  - intros tool w1 h r1 Hs H He Hx r2.
    destruct (run_command_127 cmd tool t env w w1 h r1 Hs H He Hx) as (l & w3 & _ & _ & _ & Hr).
    rewrite Hr; cbn [snd fst ncalls log_call pred]; intros H2 H2x.
    rewrite H2, H2x; split; reflexivity.
Qed.

Lemma rt_ret {A} (x : A) : rt_only (ret x).
Proof. intros env w e w' H; discriminate. Qed.

Lemma rt_get : rt_only get.
Proof. intros env w e w' H; discriminate. Qed.

Lemma rt_modify f : rt_only (modify f).
Proof. intros env w e w' H; discriminate. Qed.

Lemma rt_raise {A} m : rt_only (A := A) (raise (RuntimeError m)).
Proof. intros env w e w' H; injection H as <- _; eexists; reflexivity. Qed.

Lemma rt_bind {A B} (m : M A) (k : A -> M B) :
  rt_only m -> (forall x, rt_only (k x)) -> rt_only (bind m k).
Proof.
  intros Hm Hk env w e w' H; unfold bind in H.
  destruct (m env w) as [[e0|x] w0] eqn:E.
  - injection H as <- _; exact (Hm env w e0 w0 E).
  - exact (Hk x env w0 e w' H).
Qed.

Lemma rt_catch {A} (m : M A) h : (forall e, rt_only (h e)) -> rt_only (catch m h).
Proof.
  intros Hh env w e w' H; unfold catch in H.
  destruct (m env w) as [[e0|x] w0]; [exact (Hh e0 env w0 e w' H) | discriminate].
Qed.

Ltac rt_tac :=
  repeat (first
    [ apply rt_ret | apply rt_get | apply rt_modify | apply rt_raise
    | apply rt_bind; [|intros ?] | apply rt_catch; intros ?
    | match goal with
      | |- rt_only (match ?x with _ => _ end) => destruct x
      | |- rt_only (if ?b then _ else _) => destruct b
      end ]).

(** An exception out of [get_or_create_sandbox] is a [RuntimeError]: the
    one of [create_sandbox] (or of [install_security_tools] without a
    sandbox). *)
Lemma lease_raises_runtime : rt_only get_or_create_sandbox.
Proof.
  unfold get_or_create_sandbox, close_sandbox, create_sandbox, install_security_tools,
    self_sandbox; rt_tac.
Qed.

(** C2: no dispatch is retried and there is no backoff.  In
    [run_command], a dispatch that raises a transport error is issued once
    and turned at once into a failure result.  An exception of the lease
    inside [run_command] is always the [RuntimeError] of a failed sandbox
    creation, and [run_command] catches it too: it returns a failure
    result and does not raise, although its docstring and the spec make
    this error fatal.  [exec_command] issues the command once and raises
    [RuntimeError] on a transport error. *)
Theorem single_attempt_no_retry :
  (forall cmd t env w w1 h m,
     get_or_create_sandbox env w = (inr (Some h), w1) -> env (ncalls w1) = RExn m ->
     run_command cmd t env w =
     (inr (failure_result (TransportError m)), log_call (ERun h cmd t OUser) (incr_count w1))) /\
  (forall cmd t env w e w1,
     get_or_create_sandbox env w = (inl e, w1) ->
     (exists msg, e = RuntimeError msg) /\
     run_command cmd t env w = (inr (failure_result e), w1)) /\
  (forall cmd t env w sb w1 m,
     get_sandbox env (log_event (EExec cmd t) w) = (inr (Some sb), w1) ->
     env (ncalls w1) = RExn m ->
     exec_command cmd t env w =
     (inl (RuntimeError ("Command execution failed: " ++ m)%string),
      log_call (ERun sb cmd t OUser) w1)).
Proof.
  split; [|split].
  - intros cmd t env w w1 h m H He.
    rewrite (run_command_after_lease cmd t env w w1 h H); cbn zeta; rewrite He; reflexivity.
  - intros cmd t env w e w1 H.
    destruct (lease_raises_runtime env w e w1 H) as [msg ->].
    split; [eexists; reflexivity|].
    rewrite (run_command_lease_raises cmd t env w w1 _ H); reflexivity.
  - intros cmd t env w sb w1 m H He.
    apply (proj2 (exec_command_answer cmd t env w sb w1 H) (TransportError m)).
    right; exists m; split; [exact He | reflexivity].
Qed.

(** A rate-limited dispatch is not retried although the next call would
    succeed; a creation quota error yields a failure result. *)
Example retry_absent_counterexample :
  run_command "nmap x" 120 env_rate (w_live 0) =
    (inr (failure_result (TransportError "rate limit exceeded")),
     log_call (ERun 0 "nmap x" 120 OUser) (incr_count (w_live 0))) /\
  env_rate 2 = ROk ok_result /\
  fst (run_command "nmap x" 120 (fun _ => RExn "quota exceeded") w_empty) =
    inr (failure_result (RuntimeError "Failed to create E2B sandbox: quota exceeded")).
Proof. split; [|split]; vm_compute; reflexivity. Qed.

(** When the update and install commands answer, [install_security_tools]
    dispatches all three of its commands, whatever the verify command does. *)
Lemma install_trace env w h r0 r1 :
  sandbox w = Some h ->
  env (ncalls w) = ROk r0 -> env (S (ncalls w)) = ROk r1 ->
  trace (snd (install_security_tools env w)) =
  trace w ++ [EProvision; ERun h update_cmd 120 OProvision; ERun h install_cmd 300 OProvision;
              ERun h verify_cmd 30 OProvision].
Proof.
  intros Hsb H0 H1; destruct w; cbn in Hsb, H0, H1; subst.
  unfold install_security_tools, bind, get, catch, modify, self_sandbox, ret, commands_run,
    log_event, log_call.
  cbn; rewrite H0; cbn; rewrite H1; cbn.
  destruct (env (S (S ncalls0))); cbn; rewrite <- !app_assoc; reflexivity.
Qed.

(** C9: [install_security_tools] on a manager with a sandbox never
    raises and leaves the manager unchanged, so it can be called twice.
    Nothing short-circuits a second call: when the update and install
    commands answer (any exit code), each call dispatches the update,
    install and verify commands again, whatever the first call's verify
    output said. *)
Theorem provision_not_short_circuited env w h :
  sandbox w = Some h ->
  (fst (install_security_tools env w) = inr tt /\ frame w (snd (install_security_tools env w))) /\
  (forall r0 r1,
     env (ncalls w) = ROk r0 -> env (S (ncalls w)) = ROk r1 ->
     trace (snd (install_security_tools env w)) =
     trace w ++ [EProvision; ERun h update_cmd 120 OProvision; ERun h install_cmd 300 OProvision;
                 ERun h verify_cmd 30 OProvision]) /\
  (let w1 := snd (install_security_tools env w) in
   fst (install_security_tools env w1) = inr tt /\ frame w (snd (install_security_tools env w1)) /\
   forall r0 r1 r2 r3,
     env (ncalls w) = ROk r0 -> env (S (ncalls w)) = ROk r1 ->
     env (ncalls w1) = ROk r2 -> env (S (ncalls w1)) = ROk r3 ->
     trace (snd (install_security_tools env w1)) =
     trace w ++ [EProvision; ERun h update_cmd 120 OProvision; ERun h install_cmd 300 OProvision;
                 ERun h verify_cmd 30 OProvision;
                 EProvision; ERun h update_cmd 120 OProvision; ERun h install_cmd 300 OProvision;
                 ERun h verify_cmd 30 OProvision]).
Proof.
  intros Hsb.
  destruct (install_spec env w h Hsb) as (l & w1 & Hi & Hf & _).
  assert (Hsb1 : sandbox w1 = Some h) by (destruct Hf as [E _]; rewrite E; exact Hsb).
  destruct (install_spec env w1 h Hsb1) as (l2 & w2 & Hi2 & Hf2 & _).
  split; [|split].
  - rewrite Hi; split; [reflexivity | exact Hf].
  - intros r0 r1; apply install_trace; exact Hsb.
  - cbv zeta; rewrite Hi; cbn [snd]; rewrite Hi2; cbn [fst snd].
    split; [reflexivity|]; split.
    + destruct Hf as (A1 & A2 & A3 & A4 & A5 & A6 & A7 & A8);
      destruct Hf2 as (B1 & B2 & B3 & B4 & B5 & B6 & B7 & B8);
      repeat split; congruence.
    + intros r0 r1 r2 r3 H0 H1 H2 H3.
      pose proof (install_trace env w h r0 r1 Hsb H0 H1) as T1.
      pose proof (install_trace env w1 h r2 r3 Hsb1 H2 H3) as T2.
      rewrite Hi in T1; rewrite Hi2 in T2; cbn [snd] in T1, T2.
      rewrite T2, T1, <- app_assoc; reflexivity.
Qed.

Lemma expired_frame w w' : frame w w' -> expired w' = expired w.
Proof.
  intros (_ & Hc & _ & Ha & _ & _ & Hk & _); unfold expired; rewrite Hc, Ha, Hk; reflexivity.
Qed.

Lemma run_command_keep cmd t env w h :
  sandbox w = Some h -> within_limits w = true ->
  frame (incr_count w) (snd (run_command cmd t env w)).
Proof.
  intros Hsb Hw; apply (run_command_frame cmd t env w (Some h) w); apply lease_keep; assumption.
Qed.

Lemma lease_recreate env w :
  should_recreate w = true -> resp_ok (env (ncalls w)) = true ->
  exists w'', get_or_create_sandbox env w = (inr (Some (next_id w)), w'') /\
              command_count w'' = 0%Z.
Proof.
  intros Hs Ho.
  unfold get_or_create_sandbox, bind at 1, get at 1; rewrite Hs.
  remember install_security_tools as Inst eqn:HI.
  unfold close_sandbox, create_sandbox, sandbox_create, self_sandbox,
    catch, bind, get, modify, ret, raise.
  destruct w as [sb ca cc ma mc gs ck nid nc tr]; cbn in Ho |- *.
  destruct sb; cbn.
  all: destruct (env nc) as [r| |m]; [|discriminate|discriminate]; cbn.
  all: subst Inst; match goal with |- context [install_security_tools ?E ?W] =>
    destruct (install_spec E W nid eq_refl) as (l & w3 & Hi & (Hsb & _ & Hc & _) & _)
  end; rewrite Hi; cbn; rewrite Hsb; eexists; split; [reflexivity | exact Hc].
Qed.

Lemma run_commands_progress cs : forall env w h,
  sandbox w = Some h -> expired w = false ->
  (command_count w + Z.of_nat (length cs) <= max_commands w)%Z ->
  sandbox (snd (run_commands cs env w)) = Some h /\
  expired (snd (run_commands cs env w)) = false /\
  command_count (snd (run_commands cs env w)) = (command_count w + Z.of_nat (length cs))%Z /\
  max_commands (snd (run_commands cs env w)) = max_commands w /\
  next_id (snd (run_commands cs env w)) = next_id w.
Proof.
  induction cs as [|[c t] cs IH]; intros env w h Hsb He Hle.
  - cbn; repeat split; auto; lia.
  - cbn [run_commands]; unfold bind at 1 2 3 4 5.
    assert (Hw : within_limits w = true).
    { unfold within_limits; rewrite He; cbn; apply Z.ltb_lt; cbn [length] in Hle; lia. }
    pose proof (run_command_keep c t env w h Hsb Hw) as Hf.
    destruct (run_command_total c t env w) as [r Hr].
    destruct (run_command c t env w) as [res w1]; cbn in Hr, Hf; subst res.
    assert (He1 : expired w1 = false).
    { rewrite <- He; change (expired w) with (expired (incr_count w)); apply expired_frame; exact Hf. }
    destruct Hf as (Hs1 & Hc1 & Hn1 & Ha1 & Hm1 & Hg1 & Hk1 & Hi1).
    cbn [length] in Hle.
    destruct (IH env w1 h ltac:(rewrite Hs1; exact Hsb) He1
                ltac:(rewrite Hn1, Hm1; cbn; lia)) as (A & B & C & D & F).
    repeat split; auto.
    + rewrite C, Hn1; cbn; lia.
    + rewrite D, Hm1; reflexivity.
    + rewrite F, Hi1; reflexivity.
Qed.

(** C5: while the sandbox is within its age and command limits, every
    lease returns the same handle; after [max_commands] commands against a
    fresh handle, the next lease returns another handle whose
    [command_count] is 0. *)
Theorem lease_identity_and_recycle :
  (forall ops env w h hs w',
     sandbox w = Some h -> run_ops ops env w = (inr (hs, true), w') ->
     Forall (fun x => x = Some h) hs) /\
  (forall cs env w h,
     sandbox w = Some h -> command_count w = 0%Z -> expired w = false ->
     Z.of_nat (length cs) = max_commands w -> (h < next_id w)%nat ->
     resp_ok (env (ncalls (snd (run_commands cs env w)))) = true ->
     match get_or_create_sandbox env (snd (run_commands cs env w)) with
     | (inr (Some h'), w'') => h' <> h /\ command_count w'' = 0%Z
     | _ => False
     end).
Proof.
  split.
  - intros ops; induction ops as [|o os IH]; intros env w h hs w' Hsb H.
    + cbn in H; inversion H; constructor.
    + cbn [run_ops] in H; unfold bind at 1, get in H.
      set (m := match o with
                | OpLease => h0 <- get_or_create_sandbox ;; ret [h0]
                | OpRun c t => _ <- run_command c t ;; ret []
                end) in H.
      unfold bind at 1 in H; destruct (m env w) as [[e|hs0] w1] eqn:E1; [discriminate|].
      unfold bind in H; destruct (run_ops os env w1) as [[e|[hs1 b]] w2] eqn:E2; [discriminate|].
      unfold ret in H; inversion H as [[Hh Hb]]; clear H.
      apply andb_prop in Hb as [Hw Hb]; subst b.
      assert (Hs0 : Forall (fun x => x = Some h) hs0 /\ sandbox w1 = Some h).
      { destruct o as [|c t]; subst m.
        - unfold bind in E1; rewrite (lease_keep env w h Hsb Hw) in E1.
          inversion E1; subst; split; [constructor; [reflexivity | constructor] | exact Hsb].
        - unfold bind in E1.
          pose proof (run_command_keep c t env w h Hsb Hw) as (Hf & _).
          destruct (run_command c t env w) as [[e|x] w0]; [discriminate|].
          inversion E1; subst; split; [constructor | cbn in Hf; rewrite Hf; exact Hsb]. }
      destruct Hs0 as [Hs0 Hsb1].
      apply Forall_app; split; [exact Hs0 | exact (IH env w1 h hs1 w2 Hsb1 E2)].
  - intros cs env w h Hsb Hc He Hl Hh Ho.
    destruct (run_commands_progress cs env w h Hsb He ltac:(lia))
      as (A & B & C & D & F).
    assert (Hs : should_recreate (snd (run_commands cs env w)) = true).
    { unfold should_recreate; rewrite A, B; cbn; apply Z.leb_le; lia. }
    destruct (lease_recreate env _ Hs Ho) as (w'' & Hg & Hc'').
    rewrite Hg, F; split; [lia | exact Hc''].
Qed.

Lemma run_sched_app env s1 s2 c :
  run_sched env (s1 ++ s2) c = run_sched env s2 (run_sched env s1 c).
Proof. revert c; induction s1 as [|i s1 IH]; intros c; cbn; auto. Qed.

Lemma set_nth_app {A} (pre l : list A) (y z : A) :
  set_nth (length pre) z (pre ++ y :: l) = pre ++ z :: l.
Proof. induction pre as [|x pre IH]; cbn; [reflexivity | rewrite IH; reflexivity]. Qed.

Lemma nth_error_mid {A} (pre l : list A) (y : A) :
  nth_error (pre ++ y :: l) (length pre) = Some y.
Proof. induction pre as [|x pre IH]; cbn; auto. Qed.

Lemma repeat_snoc {A} (x : A) j l : repeat x j ++ x :: l = repeat x (S j) ++ l.
Proof. induction j as [|j IH]; cbn; [reflexivity | rewrite IH; reflexivity]. Qed.

Lemma seg_start_absent env w :
  sandbox w = None -> seg_start env w = (inr TAwaitCreate, w).
Proof.
  intros H; unfold seg_start, bind, get; cbn.
  unfold should_recreate; rewrite H.
  unfold close_sandbox, bind, get; rewrite H; reflexivity.
Qed.

Lemma seg_create_bumps env w :
  resp_ok (env (ncalls w)) = true -> next_id (snd (seg_create env w)) = S (next_id w).
Proof.
  intros Ho; destruct w as [sb ca cc ma mc gs ck nid nc tr]; cbn in Ho.
  unfold seg_create, catch, bind, sandbox_create, get, modify, ret, install_first,
    self_sandbox, log_event; cbn.
  destruct (env nc); [reflexivity | discriminate | discriminate].
Qed.

Lemma sched_starts env m : forall j rest w,
  sandbox w = None ->
  run_sched env (seq j m) (repeat TAwaitCreate j ++ repeat TStart m ++ rest, w) =
  (repeat TAwaitCreate (j + m) ++ rest, w).
Proof.
  induction m as [|m IH]; intros j rest w H.
  - rewrite Nat.add_0_r; reflexivity.
  - cbn [seq run_sched repeat app].
    unfold sched_step; cbn [fst snd].
    pose proof (nth_error_mid (repeat TAwaitCreate j) (repeat TStart m ++ rest) TStart) as Hn.
    rewrite repeat_length in Hn; rewrite Hn; cbn [step_task].
    rewrite (seg_start_absent env w H).
    pose proof (set_nth_app (repeat TAwaitCreate j) (repeat TStart m ++ rest) TStart TAwaitCreate) as Hs.
    rewrite repeat_length in Hs; rewrite Hs, repeat_snoc, IH by exact H.
    f_equal; f_equal; f_equal; lia.
Qed.

Lemma sched_creates env m : forall pre rest w,
  (forall i, resp_ok (env i) = true) ->
  next_id (snd (run_sched env (seq (length pre) m)
                 (pre ++ repeat TAwaitCreate m ++ rest, w))) = (next_id w + m)%nat.
Proof.
  induction m as [|m IH]; intros pre rest w Ho.
  - cbn; lia.
  - cbn [seq run_sched repeat app].
    unfold sched_step; cbn [fst snd].
    rewrite nth_error_mid; cbn [step_task].
    pose proof (seg_create_bumps env w (Ho _)) as Hb.
    destruct (seg_create env w) as [[e|p] w1]; cbn in Hb;
    rewrite set_nth_app;
    [ specialize (IH (pre ++ [TFailed e]) rest w1 Ho)
    | specialize (IH (pre ++ [p]) rest w1 Ho) ];
    rewrite length_app, <- app_assoc in IH; cbn in IH; rewrite Nat.add_1_r in IH;
    rewrite IH, Hb; lia.
Qed.

(** C1: [get_or_create_sandbox] holds no lock.  When [n] calls on a
    manager without a sandbox all reach the [AsyncSandbox.create] await
    before any creation completes, and every creation succeeds, each call
    creates a sandbox of its own: [n] sandboxes are created, not one. *)
Theorem unlocked_leases_each_create n env w :
  sandbox w = None -> (forall i, resp_ok (env i) = true) ->
  next_id (snd (run_sched env (seq 0 n ++ seq 0 n) (repeat TStart n, w))) = (next_id w + n)%nat.
Proof.
  intros Hsb Ho; rewrite run_sched_app.
  pose proof (sched_starts env n 0 [] w Hsb) as H1; cbn [repeat app] in H1.
  rewrite app_nil_r in H1; rewrite H1.
  exact (sched_creates env n [] [] w Ho).
Qed.

(** Two interleaved leases on an empty manager create two sandboxes and
    return two different handles. *)
Example lease_race_counterexample :
  let c := run_sched env_ok [0; 1; 0; 0; 0; 0; 1; 1; 1; 1]%nat ([TStart; TStart], w_empty) in
  fst c = [TDone (Some 0%nat); TDone (Some 1%nat)] /\ next_id (snd c) = 2%nat.
Proof. split; vm_compute; reflexivity. Qed.

Lemma unlocked_leases_each_create_witness :
  sandbox w_empty = None /\ (forall i, resp_ok (env_ok i) = true) /\
  next_id (snd (run_sched env_ok (seq 0 3 ++ seq 0 3) (repeat TStart 3, w_empty))) = 3%nat.
Proof.
  split; [reflexivity|]. split; [intros i; reflexivity|].
  apply (unlocked_leases_each_create 3 env_ok w_empty); [reflexivity | intros i; reflexivity].
Defined.

Lemma execs_app l1 l2 : execs (l1 ++ l2) = execs l1 ++ execs l2.
Proof. unfold execs; apply flat_map_app. Qed.

Lemma quiet_ret {A} (x : A) : quiet (ret x).
Proof. intros env w; reflexivity. Qed.

Lemma quiet_raise {A} e : quiet (A := A) (raise e).
Proof. intros env w; reflexivity. Qed.

Lemma quiet_get : quiet get.
Proof. intros env w; reflexivity. Qed.

Lemma quiet_bind {A B} (m : M A) (k : A -> M B) :
  quiet m -> (forall x, quiet (k x)) -> quiet (bind m k).
Proof.
  intros Hm Hk env w; unfold bind; specialize (Hm env w).
  destruct (m env w) as [[e|x] w']; cbn in *; [exact Hm | rewrite Hk; exact Hm].
Qed.

Lemma quiet_catch {A} (m : M A) h :
  quiet m -> (forall e, quiet (h e)) -> quiet (catch m h).
Proof.
  intros Hm Hh env w; unfold catch; specialize (Hm env w).
  destruct (m env w) as [[e|x] w']; cbn in *; [rewrite Hh; exact Hm | exact Hm].
Qed.

Lemma quiet_log_call ev w :
  (forall c t, ev <> EExec c t) -> execs (trace (log_call ev w)) = execs (trace w).
Proof.
  intros H; cbn; rewrite execs_app, <- app_nil_r; f_equal.
  destruct ev; cbn; auto; exfalso; eapply H; reflexivity.
Qed.

Lemma quiet_sandbox_create : quiet sandbox_create.
Proof.
  intros env w; unfold sandbox_create.
  destruct (env (ncalls w)); cbn [snd]; try apply quiet_log_call; try discriminate;
  cbn; rewrite execs_app, app_nil_r; reflexivity.
Qed.

Lemma quiet_commands_run sb c t o : quiet (commands_run sb c t o).
Proof.
  intros env w; unfold commands_run; destruct sb; [|reflexivity].
  destruct (env (ncalls w)); cbn; rewrite execs_app, app_nil_r; reflexivity.
Qed.

Lemma quiet_modify f : (forall w, execs (trace (f w)) = execs (trace w)) -> quiet (modify f).
Proof. intros H env w; apply H. Qed.

Ltac quiet_tac :=
  repeat (first
    [ apply quiet_ret | apply quiet_raise | apply quiet_get
    | apply quiet_sandbox_create | apply quiet_commands_run
    | apply quiet_bind; [|intros ?] | apply quiet_catch; [|intros ?]
    | match goal with
      | |- quiet (modify _) =>
          apply quiet_modify; intros ?; cbn; rewrite ?execs_app; cbn; rewrite ?app_nil_r; reflexivity
      | |- quiet (if ?b then _ else _) => destruct b
      | |- quiet (match ?x with _ => _ end) => destruct x
      end ]).

Lemma quiet_get_sandbox : quiet get_sandbox.
Proof. unfold get_sandbox, global_sandbox; quiet_tac. Qed.

Lemma exec_command_emits cmd t env w :
  execs (trace (snd (exec_command cmd t env w))) = execs (trace w) ++ [(cmd, t)].
Proof.
  unfold exec_command; unfold bind at 1, modify at 1; cbn [snd].
  match goal with |- context [snd (catch ?B ?H env ?W)] =>
    assert (Hq : quiet (catch B H)) by (quiet_tac; apply quiet_get_sandbox);
    rewrite (Hq env W)
  end.
  cbn; rewrite execs_app; reflexivity.
Qed.

Lemma gather_total ts : forall env w,
  exists rs, fst (gather ts env w) = inr rs /\ length rs = length ts.
Proof.
  induction ts as [|t ts IH]; intros env w.
  - exists []; split; reflexivity.
  - rewrite gather_cons; destruct (IH env (snd (t env w))) as (rs & H & Hl).
    destruct (gather ts env (snd (t env w))) as [[e|os] w2]; cbn in H; [discriminate|].
    injection H as <-; exists (fst (t env w) :: os); split; [reflexivity | cbn; congruence].
Qed.

Lemma gather_emits cts : forall env w,
  execs (trace (snd (gather (batch_tasks cts) env w))) = execs (trace w) ++ cts.
Proof.
  induction cts as [|[c t] cts IH]; intros env w.
  - cbn; rewrite app_nil_r; reflexivity.
  - change (batch_tasks ((c, t) :: cts)) with (exec_command c t :: batch_tasks cts).
    rewrite gather_cons.
    pose proof (IH env (snd (exec_command c t env w))) as H.
    destruct (gather (batch_tasks cts) env (snd (exec_command c t env w))) as [[e|os] w2];
    cbn [snd] in *; rewrite H, exec_command_emits, <- app_assoc; reflexivity.
Qed.

Lemma lightweight_spec url env w :
  exists s, run_lightweight_recon url env w = (inr s, snd (exec_command (info_cmd url) 30 env w)).
Proof.
  unfold run_lightweight_recon, bind, catch, ret.
  destruct (exec_command (info_cmd url) 30 env w) as [[e|r] w1]; eexists; reflexivity.
Qed.

Lemma lightweight_emits url env w :
  (exists s, fst (run_lightweight_recon url env w) = inr s) /\
  execs (trace (snd (run_lightweight_recon url env w))) = execs (trace w) ++ [(info_cmd url, 30%Z)].
Proof.
  destruct (lightweight_spec url env w) as [s Hs]; rewrite Hs; cbn [fst snd].
  split; [exists s; reflexivity | apply exec_command_emits].
Qed.

Lemma safe_ret {A} (x : A) : safe (ret x).
Proof. intros env w; exists x; reflexivity. Qed.

Lemma safe_bind {A B} (m : M A) (k : A -> M B) :
  safe m -> (forall x, safe (k x)) -> safe (bind m k).
Proof.
  intros Hm Hk env w; unfold bind; destruct (Hm env w) as [x Hx].
  destruct (m env w) as [r w']; cbn in Hx; subst r; apply Hk.
Qed.

Lemma safe_catch {A} (m : M A) h : (forall e, safe (h e)) -> safe (catch m h).
Proof.
  intros Hh env w; unfold catch; destruct (m env w) as [[e|x] w']; [apply Hh | eexists; reflexivity].
Qed.

Lemma safe_try_exec c t : safe (try_exec c t).
Proof. intros env w; unfold try_exec; rewrite attempt_spec; eexists; reflexivity. Qed.

Ltac safe_tac :=
  repeat (first
    [ apply safe_ret | apply safe_try_exec
    | apply safe_bind; [|intros ?] | apply safe_catch; intros ?
    | match goal with
      | |- safe (if ?b then _ else _) => destruct b
      | |- safe (match ?x with _ => _ end) => destruct x
      end ]).

Lemma safe_lightweight url : safe (run_lightweight_recon url).
Proof. unfold run_lightweight_recon; safe_tac. Qed.

Lemma safe_run_recon ip url : safe (run_recon ip url).
Proof.
  unfold run_recon, run_github_recon, github_phases.
  destruct (contains "github.com" url); safe_tac; apply safe_lightweight.
Qed.

Lemma run_recon_live ip url env w :
  contains "github.com" url = false ->
  probe_dead (fst (exec_command (probe_cmd url) 15 env w)) = false ->
  run_recon ip url env w =
  catch (results <- gather (batch_tasks (full_batch ip url)) ;; ret (aggregate results))
        (fun e => ret ("Reconnaissance failed: " ++ str_exn e)%string)
        env (snd (exec_command (probe_cmd url) 15 env w)).
Proof.
  intros Hg Hd; unfold run_recon; rewrite Hg.
  unfold bind at 1, catch at 1, bind at 1.
  destruct (exec_command (probe_cmd url) 15 env w) as [[e|code] w1]; cbn in Hd; [discriminate|].
  rewrite Hd; reflexivity.
Qed.

Lemma gather_outcomes cts : forall env w,
  exists rs, fst (gather (batch_tasks cts) env w) = inr rs /\
    Forall2 (fun ct r => exists w', r = fst (exec_command (fst ct) (snd ct) env w')) cts rs.
Proof.
  induction cts as [|[c t] cts IH]; intros env w.
  - exists []; split; [reflexivity | constructor].
  - change (batch_tasks ((c, t) :: cts)) with (exec_command c t :: batch_tasks cts).
    rewrite gather_cons.
    destruct (IH env (snd (exec_command c t env w))) as (rs & H & Hf).
    destruct (gather (batch_tasks cts) env (snd (exec_command c t env w))) as [[e|os] w2];
      cbn in H; [discriminate|].
    injection H as ->.
    exists (fst (exec_command c t env w) :: rs); split; [reflexivity|].
    constructor; [exists w; reflexivity | exact Hf].
Qed.

(** C7: [run_recon] never raises.  For a live target it dispatches the
    probe and then every command of the batch once, in declaration order;
    each slot of the gathered list is the outcome of its command, and the
    report is the outputs of the commands that did not raise, in that
    order, joined by a blank line, or the placeholder text when every
    command raised.  The output of a command is [stdout + "\n" + stderr]
    for every exit code other than 127, non-zero ones included.  A
    dispatch that raises or times out is not retried: [exec_command]
    raises right after that one dispatch. *)
Theorem recon_batch_never_raises :
  (forall ip url env w, exists report, fst (run_recon ip url env w) = inr report) /\
  (forall ip url env w,
     contains "github.com" url = false ->
     probe_dead (fst (exec_command (probe_cmd url) 15 env w)) = false ->
     execs (trace (snd (run_recon ip url env w))) =
       execs (trace w) ++ (probe_cmd url, 15%Z) :: full_batch ip url /\
     exists rs,
       Forall2 (fun ct r => exists w', r = fst (exec_command (fst ct) (snd ct) env w'))
               (full_batch ip url) rs /\
       fst (run_recon ip url env w) =
         inr (match valid_results rs with
              | [] => "No reconnaissance data collected"
              | vs => join (nl ++ nl)%string vs
              end)) /\
  (forall cmd t env w sb w1 r,
     get_sandbox env (log_event (EExec cmd t) w) = (inr (Some sb), w1) ->
     env (ncalls w1) = ROk r -> (exit_code r =? 127)%Z = false ->
     fst (exec_command cmd t env w) = inr (stdout r ++ nl ++ stderr r)%string) /\
  (forall cmd t env w sb w1,
     get_sandbox env (log_event (EExec cmd t) w) = (inr (Some sb), w1) ->
     resp_ok (env (ncalls w1)) = false ->
     exists e, exec_command cmd t env w =
       (inl (RuntimeError ("Command execution failed: " ++ str_exn e)%string),
        log_call (ERun sb cmd t OUser) w1)).
Proof.
  split; [|split; [|split]].
  - intros ip url; apply safe_run_recon.
  - intros ip url env w Hg Hd.
    rewrite (run_recon_live ip url env w Hg Hd).
    pose proof (exec_command_emits (probe_cmd url) 15 env w) as He.
    set (w1 := snd (exec_command (probe_cmd url) 15 env w)) in *.
    pose proof (gather_emits (full_batch ip url) env w1) as Hb.
    destruct (gather_outcomes (full_batch ip url) env w1) as (rs & Hrs & Hf).
    unfold catch, bind.
    destruct (gather (batch_tasks (full_batch ip url)) env w1) as [[e|rs'] w2];
      cbn in Hrs; [discriminate|]; injection Hrs as ->.
    unfold ret; cbn [snd fst] in *; split.
    + rewrite Hb, He, <- app_assoc; reflexivity.
    + exists rs; split; [exact Hf | reflexivity].
  - intros cmd t env w sb w1 r H Hr H127.
    rewrite (proj1 (exec_command_answer cmd t env w sb w1 H) r Hr H127); reflexivity.
  - intros cmd t env w sb w1 H Ho.
    destruct (env (ncalls w1)) as [r| |m] eqn:E; [discriminate| |].
    + exists TimeoutError; apply (proj2 (exec_command_answer cmd t env w sb w1 H)).
      left; split; [exact E | reflexivity].
    + exists (TransportError m); apply (proj2 (exec_command_answer cmd t env w sb w1 H)).
      right; exists m; split; [exact E | reflexivity].
Qed.

Lemma lightweight_some url env w :
  exists s, (r <- run_lightweight_recon url ;; ret (Some r)) env w =
            (inr (Some s), snd (exec_command (info_cmd url) 30 env w)).
Proof.
  destruct (lightweight_spec url env w) as [s Hs].
  exists s; unfold bind at 1; rewrite Hs; reflexivity.
Qed.

Lemma try_exec_spec c t env w :
  try_exec c t env w = (inr (fst (exec_command c t env w)), snd (exec_command c t env w)).
Proof. unfold try_exec; apply attempt_spec. Qed.

(** For a URL with [github.com], [run_recon] sends a prefix of the
    repository commands and nothing else. *)
Lemma github_execs ip url env w :
  contains "github.com" url = true ->
  exists l l', execs (trace (snd (run_recon ip url env w))) = execs (trace w) ++ l /\
               l ++ l' = github_commands url.
Proof.
  intros Hc; unfold run_recon; rewrite Hc; unfold run_github_recon, github_commands.
  destruct (gh_search url) as [[o r0]|].
  2: { exists [], []; split; [cbn; rewrite app_nil_r|]; reflexivity. }
  set (repo := upto "?"%char r0).
  unfold github_phases, bind, ret.
  repeat match goal with |- context [try_exec ?c ?t env ?w] =>
    rewrite (try_exec_spec c t env w);
    let E := fresh "E" in
    pose proof (exec_command_emits c t env w) as E;
    destruct (exec_command c t env w) as [[? | ?] ?]; cbn [fst snd] in E |- *
  end.
  all: cbn [fst snd].
  all: repeat match goal with H : execs (trace ?x) = _ |- context [execs (trace ?x)] =>
         rewrite H end; rewrite <- ?app_assoc.
  all: eexists _, _; split; [reflexivity|]; cbn; reflexivity.
Qed.

(** C8: for a URL without [github.com], [run_recon] first dispatches the
    reachability probe; then only the DNS and WHOIS command when the probe
    reports a dead target or fails, and the full batch otherwise.  For a
    URL with [github.com] it dispatches no probe: only a prefix of the
    repository commands (clone, Docker detection, port detection, code
    analysis), whatever the probe would have answered. *)
Theorem probe_selects_batch ip url env w :
  (contains "github.com" url = false ->
   execs (trace (snd (run_recon ip url env w))) =
   execs (trace w) ++ (probe_cmd url, 15%Z) ::
     (if probe_dead (fst (exec_command (probe_cmd url) 15 env w))
      then [(info_cmd url, 30%Z)]
      else full_batch ip url)) /\
  (contains "github.com" url = true ->
   exists l l', execs (trace (snd (run_recon ip url env w))) = execs (trace w) ++ l /\
                l ++ l' = github_commands url /\ ~ In (probe_cmd url, 15%Z) l).
Proof.
  split.
  2: { intros Hc; destruct (github_execs ip url env w Hc) as (l & l' & H1 & H2).
       exists l, l'; split; [exact H1|]; split; [exact H2|].
       intros Hin; assert (Hg : In (probe_cmd url, 15%Z) (github_commands url))
         by (rewrite <- H2; apply in_or_app; left; exact Hin).
       unfold github_commands in Hg; destruct (gh_search url) as [[o r0]|]; cbn in Hg;
       [|contradiction].
       repeat destruct Hg as [Hg|Hg]; try contradiction; inversion Hg. }
  intros Hg; unfold run_recon; rewrite Hg.
  unfold bind at 1, catch at 1, bind at 1.
  pose proof (exec_command_emits (probe_cmd url) 15 env w) as He.
  destruct (exec_command (probe_cmd url) 15 env w) as [[e|code] w1]; cbn [fst snd probe_dead] in *.
  - destruct (lightweight_some url env w1) as [s Hs]; rewrite Hs; unfold ret; cbv beta iota; cbn [snd].
    cbn [snd]; rewrite exec_command_emits, He, <- app_assoc; reflexivity.
  - destruct (contains "000" code || is_blank code).
    + destruct (lightweight_some url env w1) as [s Hs]; rewrite Hs; unfold ret; cbv beta iota; cbn [snd].
      rewrite exec_command_emits, He, <- app_assoc; reflexivity.
    + unfold ret at 1; unfold catch, bind at 1.
      pose proof (gather_emits (full_batch ip url) env w1) as Hb.
      change (map (fun ct => exec_command (fst ct) (snd ct)) (full_batch ip url))
        with (batch_tasks (full_batch ip url)).
      destruct (gather (batch_tasks (full_batch ip url)) env w1) as [[e|rs] w2]; cbn [snd] in *;
      unfold ret; cbv beta iota; cbn [snd]; rewrite Hb, He, <- app_assoc; reflexivity.
Qed.


Lemma command_count_once_witness :
  get_or_create_sandbox env_ok (w_live 5) = (inr (Some 0%nat), w_live 5) /\
  command_count (snd (run_command "nmap x" 120 env_ok (w_live 5))) = 6%Z.
Proof.
  split; [vm_compute; reflexivity|].
  refine (command_count_once "nmap x" 120 env_ok (w_live 5) (Some 0%nat) (w_live 5) _).
  vm_compute; reflexivity.
Defined.


Lemma run_command_never_raises_witness :
  split_first "nmap x" = Some "nmap" /\
  fst (run_command "nmap x" 120 env127 (w_live 0)) =
    inr (failure_result (RuntimeError (tool_unavailable_msg "nmap"))).
Proof.
  split; [vm_compute; reflexivity|].
  refine (proj1 (proj2 (run_command_never_raises "nmap x" 120 env127 (w_live 0))
                   "nmap" (w_live 0) 0 r127 _ _ _ _ r127 _ _));
  vm_compute; reflexivity.
Defined.

Lemma single_attempt_no_retry_witness :
  (env_rate (ncalls (w_live 0)) = RExn "rate limit exceeded" /\
   run_command "nmap x" 120 env_rate (w_live 0) =
     (inr (failure_result (TransportError "rate limit exceeded")),
      log_call (ERun 0 "nmap x" 120 OUser) (incr_count (w_live 0)))) /\
  (get_or_create_sandbox env_quota w_empty =
     (inl (RuntimeError "Failed to create E2B sandbox: quota exceeded"),
      snd (get_or_create_sandbox env_quota w_empty)) /\
   (exists msg, RuntimeError "Failed to create E2B sandbox: quota exceeded" = RuntimeError msg) /\
   run_command "nmap x" 120 env_quota w_empty =
     (inr (failure_result (RuntimeError "Failed to create E2B sandbox: quota exceeded")),
      snd (get_or_create_sandbox env_quota w_empty))).
Proof.
  split.
  - split; [reflexivity|].
    refine (proj1 single_attempt_no_retry "nmap x" 120%Z env_rate (w_live 0) (w_live 0) 0
              "rate limit exceeded" _ _); vm_compute; reflexivity.
  - split; [vm_compute; reflexivity|].
    refine (proj1 (proj2 single_attempt_no_retry) "nmap x" 120%Z env_quota w_empty _ _ _).
    vm_compute; reflexivity.
Defined.

Lemma provision_not_short_circuited_witness :
  sandbox (w_live 0) = Some 0%nat /\
  trace (snd (install_security_tools env_ok (w_live 0))) =
    [EProvision; ERun 0 update_cmd 120 OProvision; ERun 0 install_cmd 300 OProvision;
     ERun 0 verify_cmd 30 OProvision] /\
  trace (snd (install_security_tools env_ok (snd (install_security_tools env_ok (w_live 0))))) =
    [EProvision; ERun 0 update_cmd 120 OProvision; ERun 0 install_cmd 300 OProvision;
     ERun 0 verify_cmd 30 OProvision;
     EProvision; ERun 0 update_cmd 120 OProvision; ERun 0 install_cmd 300 OProvision;
     ERun 0 verify_cmd 30 OProvision].
Proof.
  split; [reflexivity|]; split.
  - refine (proj1 (proj2 (provision_not_short_circuited env_ok (w_live 0) 0 _)) ok_result ok_result _ _);
    reflexivity.
  - refine (proj2 (proj2 (proj2 (proj2 (provision_not_short_circuited env_ok (w_live 0) 0 _))))
              ok_result ok_result ok_result ok_result _ _ _ _);
    reflexivity.
Defined.

(** A second installation, after a verify output listing every tool as
    present, dispatches the update and install commands again. *)
Example provision_repeats_counterexample :
  let w1 := snd (install_security_tools env_verified (w_live 0)) in
  let w2 := snd (install_security_tools env_verified w1) in
  trace w2 =
    [EProvision; ERun 0 update_cmd 120 OProvision; ERun 0 install_cmd 300 OProvision;
     ERun 0 verify_cmd 30 OProvision;
     EProvision; ERun 0 update_cmd 120 OProvision; ERun 0 install_cmd 300 OProvision;
     ERun 0 verify_cmd 30 OProvision].
Proof. vm_compute; reflexivity. Qed.

Lemma lease_identity_and_recycle_witness :
  Forall (fun x => x = Some 0%nat) [Some 0%nat; Some 0%nat] /\
  match get_or_create_sandbox env_ok (snd (run_commands (repeat ("ls", 10%Z) 100) env_ok (w_live 0))) with
  | (inr (Some h'), w'') => h' <> 0%nat /\ command_count w'' = 0%Z
  | _ => False
  end.
Proof.
  split.
  - refine (proj1 lease_identity_and_recycle [OpLease; OpRun "ls" 10%Z; OpLease] env_ok (w_live 0) 0
              [Some 0%nat; Some 0%nat]
              (snd (run_ops [OpLease; OpRun "ls" 10%Z; OpLease] env_ok (w_live 0))) _ _);
    vm_compute; reflexivity.
  - refine (proj2 lease_identity_and_recycle (repeat ("ls", 10%Z) 100) env_ok (w_live 0) 0 _ _ _ _ _ _);
    vm_compute; try reflexivity; lia.
Defined.

Lemma recon_batch_never_raises_witness :
  (contains "github.com" "http://t" = false /\
   probe_dead (fst (exec_command (probe_cmd "http://t") 15 env_live w_empty)) = false /\
   execs (trace (snd (run_recon "" "http://t" env_live w_empty))) =
     execs (trace w_empty) ++ (probe_cmd "http://t", 15%Z) :: full_batch "" "http://t" /\
   exists rs,
     Forall2 (fun ct r => exists w', r = fst (exec_command (fst ct) (snd ct) env_live w'))
             (full_batch "" "http://t") rs /\
     fst (run_recon "" "http://t" env_live w_empty) =
       inr (match valid_results rs with
            | [] => "No reconnaissance data collected"
            | vs => join (nl ++ nl)%string vs
            end)) /\
  fst (exec_command "ls" 10 env_fail1 w_cached) = inr ("out" ++ nl ++ "err")%string /\
  (exists e, exec_command "ls" 10 env_timeout w_cached =
     (inl (RuntimeError ("Command execution failed: " ++ str_exn e)%string),
      log_call (ERun 5 "ls" 10 OUser) (log_event (EExec "ls" 10) w_cached))).
Proof.
  split; [|split].
  - split; [vm_compute; reflexivity|]. split; [vm_compute; reflexivity|].
    refine (proj1 (proj2 recon_batch_never_raises) "" "http://t" env_live w_empty _ _);
    vm_compute; reflexivity.
  - refine (proj1 (proj2 (proj2 recon_batch_never_raises)) "ls" 10%Z env_fail1 w_cached 5
              (log_event (EExec "ls" 10) w_cached) (mkResult "out" "err" 1) _ _ _);
    reflexivity.
  - refine (proj2 (proj2 (proj2 recon_batch_never_raises)) "ls" 10%Z env_timeout w_cached 5
              (log_event (EExec "ls" 10) w_cached) _ _); reflexivity.
Defined.

(** The probe answers 200 and both batch commands fail: the report is
    the placeholder text, not an empty concatenation. *)
Example recon_report_counterexample :
  fst (exec_command (probe_cmd "http://t") 15 env_batch_down w_empty) = inr ("200" ++ nl)%string /\
  fst (run_recon "" "http://t" env_batch_down w_empty) = inr "No reconnaissance data collected".
Proof. split; vm_compute; reflexivity. Qed.

Lemma probe_selects_batch_witness :
  (contains "github.com" "http://t" = false /\
   execs (trace (snd (run_recon "" "http://t" env_ok w_empty))) =
     [(probe_cmd "http://t", 15%Z); (info_cmd "http://t", 30%Z)]) /\
  (contains "github.com" "https://github.com/a/b" = true /\
   exists l l', execs (trace (snd (run_recon "" "https://github.com/a/b" env_ok w_empty))) = l /\
                l ++ l' = github_commands "https://github.com/a/b" /\
                ~ In (probe_cmd "https://github.com/a/b", 15%Z) l).
Proof.
  split; split.
  - vm_compute; reflexivity.
  - refine (eq_trans (proj1 (probe_selects_batch "" "http://t" env_ok w_empty) _) _);
    vm_compute; reflexivity.
  - vm_compute; reflexivity.
  - refine (proj2 (probe_selects_batch "" "https://github.com/a/b" env_ok w_empty) _);
    vm_compute; reflexivity.
Defined.

(** A GitHub URL gets no reachability probe: only the four repository
    commands are dispatched. *)
Example github_skips_probe_counterexample :
  execs (trace (snd (run_recon "" "https://github.com/a/b" env_ok w_empty))) =
    [(clone_cmd "a" "b", 60%Z); (docker_cmd "b", 30%Z); (port_cmd "b", 10%Z);
     (analysis_cmd "b", 30%Z)] /\
  existsb (fun ct => String.eqb (fst ct) (probe_cmd "https://github.com/a/b"))
    (execs (trace (snd (run_recon "" "https://github.com/a/b" env_ok w_empty)))) = false.
Proof. split; vm_compute; reflexivity. Qed.

(* ------------------------------------------------------------------ *)
(** ** Further properties of the code *)


(** X1: with a sandbox already cached in [_sandbox], when the answer's exit code is not 127, [exec_command] makes one remote call, creates and provisions nothing, and returns [stdout + "\n" + stderr]. *)
Theorem exec_command_cached_output cmd t env w sb r :
  g_sandbox w = Some sb -> env (ncalls w) = ROk r -> (exit_code r =? 127)%Z = false ->
  exec_command cmd t env w =
  (inr (stdout r ++ nl ++ stderr r)%string, log_call (ERun sb cmd t OUser) (log_event (EExec cmd t) w)).
Proof.
  intros Hg He H127; destruct w; cbn in Hg, He; subst.
  unfold exec_command, get_sandbox, commands_run, bind, catch, modify, get, ret, log_event.
  cbn. rewrite He, H127. reflexivity.
Qed.

(** X2: with no cached sandbox, a failed [AsyncSandbox.create] makes [exec_command] raise [RuntimeError("Command execution failed: ...")] after that one creation attempt; no command is sent and [_sandbox] stays [None]. *)
Theorem exec_command_creation_failure cmd t env w :
  g_sandbox w = None -> resp_ok (env (ncalls w)) = false ->
  exists e, exec_command cmd t env w =
  (inl (RuntimeError ("Command execution failed: " ++ str_exn e)%string),
   log_call (ECreate (next_id w)) (log_event (EExec cmd t) w)).
Proof.
  intros Hg He; destruct w as [sb ca cc ma mc gs ck nid nc tr]; cbn in Hg, He; subst.
  unfold exec_command, get_sandbox, sandbox_create, bind, catch, modify, get, ret, raise, log_event.
  cbn. destruct (env nc); [discriminate| |]; eexists; reflexivity.
Qed.

(** X6: a blank command (one in which Python's [str.split()] finds no field) answered with exit code 127 makes [run_command] return the failure result of the [IndexError] after the one dispatch: no reinstallation and no second dispatch. *)
Theorem run_command_blank_127 cmd t env w w1 h r :
  split_first cmd = None ->
  get_or_create_sandbox env w = (inr (Some h), w1) ->
  env (ncalls w1) = ROk r -> exit_code r = 127%Z ->
  run_command cmd t env w =
  (inr (failure_result IndexError), log_call (ERun h cmd t OUser) (incr_count w1)).
Proof.
  intros Hs Hl He H127; rewrite (run_command_after_lease cmd t env w w1 h Hl).
  cbv zeta; rewrite He, H127, Hs; reflexivity.
Qed.

(** X3: when [exec_command] obtains a sandbox and a blank command (one in which Python's [str.split()] finds no field) is answered with exit code 127, [exec_command] raises [RuntimeError("Command execution failed: list index out of range")] after that one dispatch, without dropping the sandbox, reinstalling or retrying. *)
Theorem exec_command_blank_127 cmd t env w sb w1 r :
  split_first cmd = None ->
  get_sandbox env (log_event (EExec cmd t) w) = (inr (Some sb), w1) ->
  env (ncalls w1) = ROk r -> exit_code r = 127%Z ->
  exec_command cmd t env w =
  (inl (RuntimeError "Command execution failed: list index out of range"),
   log_call (ERun sb cmd t OUser) w1).
Proof.
  intros Hs H He H127; set (w0 := log_event (EExec cmd t) w) in H.
  unfold exec_command.
  remember get_sandbox as G eqn:HG.
  unfold catch, bind, modify, ret, raise.
  fold w0; rewrite H.
  unfold commands_run.
  rewrite He; cbn [exit_code]; rewrite H127, Z.eqb_refl; cbv beta iota; rewrite Hs; reflexivity.
Qed.

(** X15: a target URL that contains [github.com] but does not match the repository pattern gives the report ["Invalid GitHub URL: " + url] and dispatches nothing. *)
Theorem recon_invalid_github_url ip url env w :
  contains "github.com" url = true -> gh_search url = None ->
  run_recon ip url env w = (inr ("Invalid GitHub URL: " ++ url)%string, w).
Proof.
  intros Hc Hs; unfold run_recon; rewrite Hc; unfold run_github_recon; rewrite Hs; reflexivity.
Qed.

(** X8: when [run_command] needs a new sandbox and the creation succeeds, the manager afterwards holds the new sandbox with [command_count] 1. *)
Theorem first_command_after_recreate cmd t env w :
  should_recreate w = true -> resp_ok (env (ncalls w)) = true ->
  sandbox (snd (run_command cmd t env w)) = Some (next_id w) /\
  command_count (snd (run_command cmd t env w)) = 1%Z.
Proof.
  intros Hs Ho; destruct (lease_recreate env w Hs Ho) as (w1 & Hl & Hc).
  destruct (run_command_frame cmd t env w _ w1 Hl) as (Hsb & _ & Hcc & _).
  rewrite Hsb, Hcc; cbn; rewrite (lease_result _ _ _ _ Hl), Hc; split; reflexivity.
Qed.

Lemma lease_create_fails env w :
  should_recreate w = true -> resp_ok (env (ncalls w)) = false ->
  exists e w', get_or_create_sandbox env w =
    (inl (RuntimeError ("Failed to create E2B sandbox: " ++ str_exn e)%string), w') /\
    sandbox w' = None /\ trace w' = trace w ++ [ECreate (next_id w)].
Proof.
  intros Hs Ho.
  unfold get_or_create_sandbox, bind at 1, get at 1; rewrite Hs.
  unfold close_sandbox, create_sandbox, sandbox_create, catch, bind, get, modify, ret, raise.
  destruct w as [sb ca cc ma mc gs ck nid nc tr]; cbn in Ho |- *.
  destruct sb; cbn; destruct (env nc) as [r| |m]; cbn in Ho; try discriminate; cbn.
  all: first [ exists TimeoutError; eexists; split; [reflexivity | repeat split]
             | exists (TransportError m); eexists; split; [reflexivity | repeat split] ].
Qed.

(** X7: when [run_command] needs a new sandbox and its creation fails, it returns a failure result whose message is ["Command execution failed: Failed to create E2B sandbox: ..."], the command is never sent, and the manager holds no sandbox, so the next call tries to create one again. *)
Theorem creation_failure_reported cmd t env w :
  should_recreate w = true -> resp_ok (env (ncalls w)) = false ->
  exists e w', run_command cmd t env w =
    (inr (failure_result (RuntimeError ("Failed to create E2B sandbox: " ++ str_exn e)%string)), w') /\
    sandbox w' = None /\ should_recreate w' = true /\
    trace w' = trace w ++ [ECreate (next_id w)].
Proof.
  intros Hs Ho; destruct (lease_create_fails env w Hs Ho) as (e & w' & Hl & Hsb & Htr).
  exists e, w'; rewrite (run_command_lease_raises _ _ _ _ _ _ Hl).
  unfold should_recreate; rewrite Hsb; repeat split; assumption.
Qed.

(** X9: [close_sandbox] followed by [get_or_create_sandbox] returns a new sandbox (the next id) with [command_count] 0 when the creation succeeds. *)
Theorem close_then_lease_fresh env w :
  resp_ok (env (ncalls w)) = true ->
  exists w', (close_sandbox ;;; get_or_create_sandbox) env w = (inr (Some (next_id w)), w') /\
             command_count w' = 0%Z.
Proof.
  intros Ho.
  assert (Hc : exists w1, close_sandbox env w = (inr tt, w1) /\ sandbox w1 = None /\
                          ncalls w1 = ncalls w /\ next_id w1 = next_id w).
  { unfold close_sandbox, bind, get, modify, ret; destruct (sandbox w) eqn:E;
      eexists; repeat split; auto. }
  destruct Hc as (w1 & Hc & Hsb & Hn & Hi).
  unfold bind at 1; rewrite Hc.
  assert (Hs : should_recreate w1 = true) by (unfold should_recreate; rewrite Hsb; reflexivity).
  rewrite <- Hn in Ho; rewrite <- Hi; apply (lease_recreate env w1 Hs Ho).
Qed.

(** X11: at the moment the age of the sandbox equals [max_sandbox_age], [get_sandbox_info] reports [will_reset_in] 0, yet [get_or_create_sandbox] keeps the sandbox (the expiry test is a strict comparison). *)
Theorem info_zero_while_kept env w h c :
  sandbox w = Some h -> created_at w = Some c -> c <> 0%Z ->
  (command_count w < max_commands w)%Z -> (clock w - c = max_sandbox_age w)%Z ->
  exists i, get_sandbox_info env w = (inr i, w) /\ i_active i = true /\
            i_will_reset_in i = Some 0%Z /\
            get_or_create_sandbox env w = (inr (Some h), w).
Proof.
  intros Hsb Hc Hc0 Hn Hage.
  exists (sandbox_info_of w); split; [reflexivity|].
  unfold sandbox_info_of, info_age; rewrite Hsb, Hc, (proj2 (Z.eqb_neq _ _) Hc0); cbn.
  split; [reflexivity|]; split; [f_equal; lia|].
  apply lease_keep with (1 := Hsb).
  unfold within_limits, expired; rewrite Hc, (proj2 (Z.eqb_neq _ _) Hc0); cbn.
  rewrite Hage, Z.gtb_ltb, Z.ltb_irrefl; cbn; apply Z.ltb_lt; exact Hn.
Qed.

(** X10: when the package update fails, [install_security_tools] skips the installation and the verification and returns normally; only the update was sent. *)
Theorem install_stops_after_update_failure env w h :
  sandbox w = Some h -> resp_ok (env (ncalls w)) = false ->
  install_security_tools env w =
  (inr tt, log_call (ERun h update_cmd 120 OProvision) (log_event EProvision w)).
Proof.
  intros Hsb Ho; destruct w as [sb ca cc ma mc gs ck nid nc tr]; cbn in Hsb, Ho; subst.
  unfold install_security_tools, self_sandbox, commands_run, catch, bind, get, modify, ret,
    log_event.
  cbn; destruct (env nc); [discriminate| |]; reflexivity.
Qed.




Lemma grows_ret {A} (x : A) : grows (ret x).
Proof. intros env w; exists []; rewrite app_nil_r; reflexivity. Qed.

Lemma grows_raise {A} e : grows (A := A) (raise e).
Proof. intros env w; exists []; rewrite app_nil_r; reflexivity. Qed.

Lemma grows_get : grows get.
Proof. intros env w; exists []; rewrite app_nil_r; reflexivity. Qed.

Lemma ext_bind {A B} (m : M A) (k : A -> M B) env w :
  (forall x, grows (k x)) ->
  exists l, trace (snd (bind m k env w)) = trace (snd (m env w)) ++ l.
Proof.
  intros Hk; unfold bind; destruct (m env w) as [[e|x] w']; cbn [snd];
    [exists []; rewrite app_nil_r; reflexivity | apply Hk].
Qed.

Lemma ext_catch {A} (m : M A) h env w :
  (forall e, grows (h e)) ->
  exists l, trace (snd (catch m h env w)) = trace (snd (m env w)) ++ l.
Proof.
  intros Hh; unfold catch; destruct (m env w) as [[e|x] w']; cbn [snd];
    [apply Hh | exists []; rewrite app_nil_r; reflexivity].
Qed.

Lemma grows_bind {A B} (m : M A) (k : A -> M B) :
  grows m -> (forall x, grows (k x)) -> grows (bind m k).
Proof.
  intros Hm Hk env w; destruct (Hm env w) as [l1 H1]; destruct (ext_bind m k env w Hk) as [l2 H2].
  exists (l1 ++ l2); rewrite H2, H1, app_assoc; reflexivity.
Qed.

Lemma grows_catch {A} (m : M A) h :
  grows m -> (forall e, grows (h e)) -> grows (catch m h).
Proof.
  intros Hm Hh env w; destruct (Hm env w) as [l1 H1]; destruct (ext_catch m h env w Hh) as [l2 H2].
  exists (l1 ++ l2); rewrite H2, H1, app_assoc; reflexivity.
Qed.

Lemma grows_modify f : (forall w, exists l, trace (f w) = trace w ++ l) -> grows (modify f).
Proof. intros H env w; apply H. Qed.

Lemma grows_sandbox_create : grows sandbox_create.
Proof. intros env w; unfold sandbox_create; destruct (env (ncalls w)); eexists; reflexivity. Qed.

Lemma grows_commands_run sb c t o : grows (commands_run sb c t o).
Proof.
  intros env w; unfold commands_run; destruct sb;
    [destruct (env (ncalls w)); eexists; reflexivity | exists []; rewrite app_nil_r; reflexivity].
Qed.

Lemma grows_sandbox_close sb : grows (sandbox_close sb).
Proof.
  intros env w; unfold sandbox_close; exists [];
    destruct (env (ncalls w)); cbn; rewrite app_nil_r; reflexivity.
Qed.

Ltac grows_tac :=
  repeat (first
    [ apply grows_ret | apply grows_raise | apply grows_get
    | apply grows_sandbox_create | apply grows_commands_run | apply grows_sandbox_close
    | apply grows_bind; [|intros ?] | apply grows_catch; [|intros ?]
    | match goal with
      | |- grows (modify _) =>
          apply grows_modify; intros ?; first [exists []; rewrite app_nil_r; reflexivity
                                               | eexists; reflexivity]
      | |- grows (if ?b then _ else _) => destruct b
      | |- grows (match ?x with _ => _ end) => destruct x
      end ]).

Lemma grows_install : grows install_security_tools.
Proof. unfold install_security_tools, self_sandbox; grows_tac. Qed.

Lemma grows_get_sandbox : grows get_sandbox.
Proof. unfold get_sandbox, global_sandbox; grows_tac. Qed.

Lemma grows_close_sandbox : grows close_sandbox.
Proof. unfold close_sandbox; grows_tac. Qed.

Lemma grows_create_sandbox : grows create_sandbox.
Proof. unfold create_sandbox; grows_tac. Qed.

Lemma grows_lease : grows get_or_create_sandbox.
Proof.
  unfold get_or_create_sandbox, self_sandbox; grows_tac;
    first [apply grows_close_sandbox | apply grows_create_sandbox | apply grows_install].
Qed.

Lemma sandbox_create_logs env w :
  trace (snd (sandbox_create env w)) = trace w ++ [ECreate (next_id w)].
Proof. unfold sandbox_create; destruct (env (ncalls w)); reflexivity. Qed.

Lemma lease_recreate_logs env w :
  should_recreate w = true ->
  exists l, trace (snd (get_or_create_sandbox env w)) = trace w ++ ECreate (next_id w) :: l.
Proof.
  intros Hs.
  unfold get_or_create_sandbox, bind at 1, get at 1; rewrite Hs.
  remember install_security_tools as Inst eqn:HI.
  unfold close_sandbox, create_sandbox, self_sandbox, catch, bind, get, modify, ret, raise.
  destruct w as [sb ca cc ma mc gs ck nid nc tr].
  destruct sb; cbn;
    pose proof (sandbox_create_logs env (set_mgr None None 0 (mkWorld (Some n) ca cc ma mc gs ck nid nc tr))) as Hc
    || pose proof (sandbox_create_logs env (mkWorld None ca cc ma mc gs ck nid nc tr)) as Hc;
    destruct (sandbox_create env _) as [[e|id] w1]; cbn in Hc |- *;
    try (rewrite Hc; exists []; reflexivity).
  all: subst Inst; match goal with |- context [install_security_tools ?E ?W] =>
    destruct (grows_install E W) as [l Hl];
    destruct (install_security_tools E W) as [[e|u] w3]; cbn in Hl |- *
  end; rewrite Hl; cbn; rewrite Hc; cbn; eexists; rewrite <- !app_assoc; reflexivity.
Qed.

Lemma run_command_after_lease_ext cmd t env w :
  exists l, trace (snd (run_command cmd t env w)) =
            trace (snd (get_or_create_sandbox env w)) ++ l.
Proof.
  unfold run_command, run_command_body.
  match goal with |- context [catch (bind get_or_create_sandbox ?K) ?H env w] =>
    destruct (ext_catch (bind get_or_create_sandbox K) H env w) as [l2 H2];
    [intros e; destruct e; grows_tac|];
    destruct (ext_bind get_or_create_sandbox K env w) as [l1 H1];
    [intros x; grows_tac; apply grows_install|]
  end.
  rewrite H2, H1, <- app_assoc; eexists; reflexivity.
Qed.

Lemma run_command_recreate_logs cmd t env w :
  should_recreate w = true ->
  exists l, trace (snd (run_command cmd t env w)) = trace w ++ ECreate (next_id w) :: l.
Proof.
  intros Hs; destruct (lease_recreate_logs env w Hs) as [l1 H1].
  destruct (run_command_after_lease_ext cmd t env w) as [l2 H2].
  rewrite H2, H1, <- app_assoc; eexists; reflexivity.
Qed.

Lemma close_sandbox_spec env w :
  exists w1, close_sandbox env w = (inr tt, w1) /\ sandbox w1 = None /\
             trace w1 = trace w /\ next_id w1 = next_id w /\ ncalls w1 = ncalls w /\
             g_sandbox w1 = g_sandbox w.
Proof.
  unfold close_sandbox, bind, get, modify, ret; destruct (sandbox w) eqn:E;
    eexists; repeat split; auto.
Qed.

(** X14: [cleanup] on a set manager clears it without touching the trace; the next [run_in_sandbox] with a key builds a new manager whose first remote action is the creation of a new sandbox. *)
Theorem cleanup_then_run_creates cmd t key env w :
  api_key_ok key = true ->
  exists w1, cleanup key env (true, w) = (inr tt, (false, w1)) /\ trace w1 = trace w /\
    exists l, trace (snd (snd (run_in_sandbox cmd t key env (false, w1)))) =
              trace w ++ ECreate (next_id w) :: l.
Proof.
  intros Hk; destruct (close_sandbox_spec env w) as (w1 & Hc & _ & Ht & Hn & _).
  exists w1; split.
  { unfold cleanup, bindG, liftG; cbn [fst snd]; rewrite Hc; reflexivity. }
  split; [exact Ht|].
  unfold run_in_sandbox, bindG, get_manager, liftG, retG; cbn [fst snd]; rewrite Hk; cbn [fst snd].
  destruct (run_command_recreate_logs cmd t env (fresh_manager w1) eq_refl) as [l Hl].
  destruct (run_command cmd t env (fresh_manager w1)) as [[e|r] w2]; cbn in Hl |- *;
    rewrite Hl, Ht, Hn; eexists; reflexivity.
Qed.

Lemma get_sandbox_none_logs env w :
  g_sandbox w = None ->
  exists l, trace (snd (get_sandbox env w)) = trace w ++ ECreate (next_id w) :: l.
Proof.
  intros Hg; unfold get_sandbox, bind at 1, get at 1; rewrite Hg.
  match goal with |- context [bind sandbox_create ?K env w] =>
    destruct (ext_bind sandbox_create K env w) as [l H];
    [intros x; unfold global_sandbox; grows_tac|]
  end.
  rewrite H, sandbox_create_logs, <- app_assoc; eexists; reflexivity.
Qed.

Lemma exec_command_none_logs cmd t env w :
  g_sandbox w = None ->
  exists l, trace (snd (exec_command cmd t env w)) = trace w ++ EExec cmd t :: ECreate (next_id w) :: l.
Proof.
  intros Hg; unfold exec_command, bind at 1, modify at 1.
  set (w0 := log_event (EExec cmd t) w).
  match goal with |- context [catch (bind get_sandbox ?K) ?H env w0] =>
    destruct (ext_catch (bind get_sandbox K) H env w0) as [l2 H2];
    [intros e; grows_tac|];
    destruct (ext_bind get_sandbox K env w0) as [l1 H1];
    [intros x; grows_tac; apply grows_get_sandbox|]
  end.
  destruct (get_sandbox_none_logs env w0 Hg) as [l0 H0].
  rewrite H2, H1, H0; cbn; rewrite <- !app_assoc; eexists; reflexivity.
Qed.

(** X5: [exec_client.close_sandbox] never raises, clears [_sandbox] and leaves the trace as it was; the next [exec_command] first requests a new sandbox. *)
Theorem close_then_exec_creates env w :
  exists w1, close_sandbox_x env w = (inr tt, w1) /\ g_sandbox w1 = None /\
    trace w1 = trace w /\
    forall cmd t, exists l, trace (snd (exec_command cmd t env w1)) =
                            trace w ++ EExec cmd t :: ECreate (next_id w) :: l.
Proof.
  assert (Hc : exists w1, close_sandbox_x env w = (inr tt, w1) /\ g_sandbox w1 = None /\
                          trace w1 = trace w /\ next_id w1 = next_id w).
  { unfold close_sandbox_x, bind, get, ret, catch, modify.
    destruct (g_sandbox w) as [sb|] eqn:E; [|eexists; repeat split; assumption].
    unfold sandbox_close; destruct (env (ncalls w)); cbn; eexists; repeat split. }
  destruct Hc as (w1 & Hc & Hg & Ht & Hn).
  exists w1; repeat split; try assumption.
  intros cmd t; rewrite <- Ht, <- Hn; apply exec_command_none_logs; exact Hg.
Qed.

(** X12: once a manager exists or the API key is set, [run_in_sandbox] returns the [output] field of the result of [run_command], run on the existing manager or on a freshly initialised one, and the manager is set afterwards. *)
Theorem run_in_sandbox_output cmd t key env s r w' :
  (fst s = true \/ api_key_ok key = true) ->
  run_command cmd t env (if fst s then snd s else fresh_manager (snd s)) = (inr r, w') ->
  run_in_sandbox cmd t key env s = (inr (r_output r), (true, w')).
Proof.
  intros Hk Hr; destruct s as [b w]; cbn [fst snd] in *.
  unfold run_in_sandbox, bindG, get_manager, liftG, retG; cbn [fst snd].
  destruct b; cbn [fst snd]; [rewrite Hr; reflexivity|].
  destruct Hk as [Hk|Hk]; [discriminate|]; rewrite Hk; cbn [fst snd]; rewrite Hr; reflexivity.
Qed.

(** X13: without a manager and without a non-empty [E2B_API_KEY], [run_in_sandbox] raises [ValueError] with the missing key message and changes nothing. *)
Theorem run_in_sandbox_missing_key cmd t key env w :
  api_key_ok key = false ->
  run_in_sandbox cmd t key env (false, w) = (inl (ValueError missing_key_msg), (false, w)).
Proof.
  intros Hk; unfold run_in_sandbox, bindG, get_manager; cbn [fst]; rewrite Hk; reflexivity.
Qed.

(** X16: for a GitHub repository URL, [run_recon] dispatches the clone alone, the clone and the Docker detection, or all of clone, Docker detection, port and analysis, in that order; the report ends with the summary, whose port is [None] in the first two cases and a non-empty string in the third. *)
Theorem github_recon_commands ip url env w o r0 :
  contains "github.com" url = true -> gh_search url = Some (o, r0) ->
  exists out pre port w', run_recon ip url env w = (inr out, w') /\
    out = (pre ++ gh_summary o (upto "?"%char r0) port)%string /\
    ((port = None /\
      (execs (trace w') = execs (trace w) ++ [(clone_cmd o (upto "?"%char r0), 60%Z)] \/
       execs (trace w') = execs (trace w) ++ [(clone_cmd o (upto "?"%char r0), 60%Z);
                                              (docker_cmd (upto "?"%char r0), 30%Z)])) \/
     (exists p, port = Some p /\ p <> "" /\
      execs (trace w') = execs (trace w) ++ [(clone_cmd o (upto "?"%char r0), 60%Z);
                                             (docker_cmd (upto "?"%char r0), 30%Z);
                                             (port_cmd (upto "?"%char r0), 10%Z);
                                             (analysis_cmd (upto "?"%char r0), 30%Z)])).
Proof.
  intros Hc Hs; unfold run_recon; rewrite Hc; unfold run_github_recon; rewrite Hs.
  set (repo := upto "?"%char r0).
  unfold github_phases, bind, ret.
  repeat match goal with |- context [try_exec ?c ?t env ?w] =>
    rewrite (try_exec_spec c t env w);
    let E := fresh "E" in
    pose proof (exec_command_emits c t env w) as E;
    destruct (exec_command c t env w) as [[? | ?] ?]; cbn [fst snd] in E |- *
  end.
  all: do 4 eexists; split; [reflexivity|]; split; [reflexivity|].
  all: repeat match goal with H : execs (trace ?x) = _ |- context [execs (trace ?x)] =>
         rewrite H end; rewrite <- ?app_assoc.
  all: first
    [ left; split; [reflexivity | first [left; reflexivity | right; reflexivity]]
    | right; eexists; split; [reflexivity|]; split; [|reflexivity];
      first [discriminate | match goal with |- context [String.eqb (strip ?s) ""] =>
        destruct (String.eqb_spec (strip s) ""); [discriminate | assumption] end] ].
Qed.

Section HostOf.
Local Open Scope string_scope.


Lemma startswith_app h rest old :
  startswith (h ++ rest) old = true ->
  (exists t, h = old ++ t) \/ (exists o2, old = h ++ o2 /\ startswith rest o2 = true).
Proof.
  revert old; induction h as [|a h IH]; intros old H.
  - right; exists old; split; [reflexivity | exact H].
  - destruct old as [|b o]; [left; exists (String a h); reflexivity|].
    cbn in H; apply andb_prop in H as [Hb H]; apply Ascii.eqb_eq in Hb; subst b.
    destruct (IH o H) as [[t Ht]|[o2 [Ho Hs]]].
    + left; exists t; rewrite Ht; reflexivity.
    + right; exists o2; rewrite Ho; split; [reflexivity | exact Hs].
Qed.

Lemma upto_app c h r : upto c h = h -> upto c (h ++ r) = h ++ upto c r.
Proof.
  induction h as [|a h IH]; intros H; [reflexivity|].
  cbn in *; destruct (Ascii.eqb a c); [discriminate|].
  injection H as H; rewrite IH by exact H; reflexivity.
Qed.

Lemma append_nil s : s ++ "" = s.
Proof. induction s as [|a s IH]; [reflexivity | cbn; rewrite IH; reflexivity]. Qed.

Lemma substring_all s : substring 0 (String.length s) s = s.
Proof. induction s as [|a s IH]; [reflexivity | cbn; rewrite IH; reflexivity]. Qed.


Lemma replace_path_start old f r :
  (old = "https://" \/ old = "http://") -> path_start r ->
  path_start (replace_aux f old "" r).
Proof.
  intros Hold [->|[t ->]]; destruct f; cbn; try (left; reflexivity);
    try (right; eexists; reflexivity);
    destruct Hold; subst old; cbn; try (left; reflexivity); right; eexists; reflexivity.
Qed.

Lemma no_scheme_inside old h rest :
  (old = "https://" \/ old = "http://") ->
  upto "/"%char h = h -> (forall x, h <> x ++ ":") -> path_start rest ->
  startswith (h ++ rest) old = false.
Proof.
  intros Hold Hu Hc Hr.
  destruct (startswith (h ++ rest) old) eqn:E; [exfalso|reflexivity].
  destruct (startswith_app h rest old E) as [[t Ht]|[o2 [Ho Hs]]].
  - subst h; destruct Hold; subst old; cbn in Hu; discriminate.
  - destruct Hold; subst old; destruct Hr as [->|[t ->]];
    repeat (destruct h as [|?a h];
            [ cbn in Ho; subst o2; cbn in Hs;
              first [ discriminate | exact (Hc "https" eq_refl) | exact (Hc "http" eq_refl) ]
            | cbn in Ho; first [ discriminate Ho | injection Ho as <- Ho ];
              try (cbn in Hu; discriminate Hu) ]).
Qed.

Lemma replace_keeps_host old f h rest :
  (old = "https://" \/ old = "http://") ->
  upto "/"%char h = h -> (forall x, h <> x ++ ":") -> path_start rest ->
  exists r, path_start r /\ replace_aux f old "" (h ++ rest) = h ++ r.
Proof.
  intros Hold; revert f; induction h as [|a h IH]; intros f Hu Hc Hr.
  - exists (replace_aux f old "" rest); split; [apply replace_path_start; assumption | reflexivity].
  - destruct f as [|f]; [exists rest; split; [exact Hr | reflexivity]|].
    cbn [replace_aux]; rewrite (no_scheme_inside old (String a h) rest Hold Hu Hc Hr).
    assert (Hu' : upto "/"%char h = h).
    { cbn in Hu; destruct (Ascii.eqb a "/"); [discriminate | injection Hu as Hu; exact Hu]. }
    assert (Hc' : forall x, h <> x ++ ":").
    { intros x Hx; apply (Hc (String a x)); rewrite Hx; reflexivity. }
    destruct (IH f Hu' Hc' Hr) as (r & Hp & He).
    exists r; split; [exact Hp|]; cbn; rewrite He; reflexivity.
Qed.

Lemma startswith_self old s : startswith (old ++ s) old = true.
Proof. induction old as [|a o IH]; [destruct s; reflexivity | cbn; rewrite Ascii.eqb_refl, IH; reflexivity]. Qed.

Lemma substring_after old s :
  substring (String.length old) (String.length (old ++ s) - String.length old) (old ++ s) = s.
Proof.
  induction old as [|a o IH]; [cbn; rewrite Nat.sub_0_r; apply substring_all | cbn; exact IH].
Qed.

Lemma replace_at_start f old new s :
  replace_aux (S f) old new (old ++ s) = new ++ replace_aux f old new s.
Proof. cbn [replace_aux]; rewrite startswith_self, substring_after; reflexivity. Qed.

Lemma replace_skip f old new c s :
  startswith (String c s) old = false ->
  replace_aux (S f) old new (String c s) = String c (replace_aux f old new s).
Proof. intros H; cbn [replace_aux]; rewrite H; reflexivity. Qed.

Lemma replace_https_keeps_http f y :
  replace_aux (S (S (S (S (S (S (S f))))))) "https://" "" ("http://" ++ y) =
  "http://" ++ replace_aux f "https://" "" y.
Proof. cbn [String.append]; do 7 (rewrite replace_skip by reflexivity); reflexivity. Qed.

Lemma list_ascii_app a b :
  list_ascii_of_string (a ++ b) = (list_ascii_of_string a ++ list_ascii_of_string b)%list.
Proof. induction a as [|c a IH]; [reflexivity | cbn; rewrite IH; reflexivity]. Qed.

Lemma no_colon_end h :
  Ascii.eqb (last (list_ascii_of_string h) " "%char) ":"%char = false ->
  forall x, h <> x ++ ":".
Proof.
  intros H x ->; rewrite list_ascii_app in H.
  change (list_ascii_of_string ":") with [":"%char] in H; rewrite last_last in H; discriminate.
Qed.

Lemma startswith_slash r : startswith r "/" = true -> exists t, r = "/" ++ t.
Proof.
  destruct r as [|c t]; [discriminate|]; cbn [startswith]; intros H.
  apply andb_prop in H as [H _]; apply Ascii.eqb_eq in H; subst c; exists t; reflexivity.
Qed.

(** X17: for an optional [http://] or [https://] scheme, a host without [/] that does not end in [:], and an empty rest or a path, the host extracted by [run_lightweight_recon] is the host. *)
Theorem host_of_url scheme h rest :
  (scheme = "" \/ scheme = "http://" \/ scheme = "https://") ->
  split_slash_first h = h ->
  Ascii.eqb (last (list_ascii_of_string h) " "%char) ":"%char = false ->
  (rest = "" \/ startswith rest "/" = true) ->
  host_of (scheme ++ h ++ rest) = h.
Proof.
  intros Hs Hu Hc0 Hr; pose proof (no_colon_end h Hc0) as Hc; clear Hc0.
  assert (Hr' : path_start rest) by (destruct Hr as [Hr|Hr]; [left; exact Hr | right; apply startswith_slash; exact Hr]).
  clear Hr; rename Hr' into Hr; unfold host_of, replace, split_slash_first in *.
  assert (H1 : exists r1, path_start r1 /\
     (replace_aux (String.length (scheme ++ h ++ rest)) "https://" "" (scheme ++ h ++ rest) = h ++ r1 \/
      replace_aux (String.length (scheme ++ h ++ rest)) "https://" "" (scheme ++ h ++ rest)
        = "http://" ++ h ++ r1)).
  { destruct Hs as [->|[->| ->]].
    - destruct (replace_keeps_host "https://" (String.length (h ++ rest)) h rest
                  (or_introl eq_refl) Hu Hc Hr) as (r & Hp & He).
      exists r; split; [exact Hp | left; exact He].
    - change (String.length ("http://" ++ h ++ rest))
        with (S (S (S (S (S (S (S (String.length (h ++ rest))))))))).
      rewrite replace_https_keeps_http.
      destruct (replace_keeps_host "https://" (String.length (h ++ rest)) h rest
                  (or_introl eq_refl) Hu Hc Hr) as (r & Hp & He).
      exists r; split; [exact Hp | right; rewrite He; reflexivity].
    - change (String.length ("https://" ++ h ++ rest))
        with (S (S (S (S (S (S (S (S (String.length (h ++ rest)))))))))).
      rewrite replace_at_start.
      destruct (replace_keeps_host "https://" (S (S (S (S (S (S (S (String.length (h ++ rest)))))))))
                  h rest (or_introl eq_refl) Hu Hc Hr) as (r & Hp & He).
      exists r; split; [exact Hp | left; exact He]. }
  destruct H1 as (r1 & Hp1 & [He1|He1]); rewrite He1.
  - destruct (replace_keeps_host "http://" (String.length (h ++ r1)) h r1
                (or_intror eq_refl) Hu Hc Hp1) as (r2 & Hp2 & He2).
    rewrite He2, upto_app by exact Hu.
    destruct Hp2 as [->|[t ->]]; cbn; apply append_nil.
  - change (String.length ("http://" ++ h ++ r1))
      with (S (S (S (S (S (S (S (String.length (h ++ r1))))))))).
    rewrite replace_at_start.
    destruct (replace_keeps_host "http://" (S (S (S (S (S (S (String.length (h ++ r1))))))))
                h r1 (or_intror eq_refl) Hu Hc Hp1) as (r2 & Hp2 & He2).
    cbn [String.append]; rewrite He2, upto_app by exact Hu.
    destruct Hp2 as [->|[t ->]]; cbn; apply append_nil.
Qed.

Lemma host_of_url_witness :
  host_of "https://example.com:8080/login" = "example.com:8080".
Proof.
  apply (host_of_url "https://" "example.com:8080" "/login");
    [right; right; reflexivity | reflexivity | reflexivity | right; reflexivity].
Defined.

End HostOf.



(* ------------------------------------------------------------------ *)
(** ** Witnesses of the further properties *)

Lemma exec_command_cached_output_witness :
  exec_command "id" 10 env_ok w_cached =
  (inr ("" ++ nl ++ "")%string,
   log_call (ERun 5 "id" 10 OUser) (log_event (EExec "id" 10) w_cached)).
Proof. apply (exec_command_cached_output "id" 10%Z env_ok w_cached 5 ok_result); reflexivity. Defined.

Lemma exec_command_creation_failure_witness :
  exists e, exec_command "id" 10 env_timeout w_empty =
  (inl (RuntimeError ("Command execution failed: " ++ str_exn e)%string),
   log_call (ECreate 0) (log_event (EExec "id" 10) w_empty)).
Proof. apply (exec_command_creation_failure "id" 10%Z env_timeout w_empty); reflexivity. Defined.

Lemma exec_command_blank_127_witness :
  get_sandbox env127 (log_event (EExec "   " 10%Z) w_cached) =
    (inr (Some 5%nat), log_event (EExec "   " 10%Z) w_cached) /\
  exec_command "   " 10 env127 w_cached =
  (inl (RuntimeError "Command execution failed: list index out of range"),
   log_call (ERun 5 "   " 10 OUser) (log_event (EExec "   " 10) w_cached)).
Proof.
  split; [reflexivity|].
  apply (exec_command_blank_127 "   " 10%Z env127 w_cached 5 (log_event (EExec "   " 10%Z) w_cached) r127);
  vm_compute; reflexivity.
Defined.


Lemma run_command_blank_127_witness :
  run_command "   " 10 env127 (w_live 0) =
  (inr (failure_result IndexError), log_call (ERun 0 "   " 10 OUser) (incr_count (w_live 0))).
Proof.
  apply (run_command_blank_127 "   " 10%Z env127 (w_live 0) (w_live 0) 0 r127);
    vm_compute; reflexivity.
Defined.

Lemma creation_failure_reported_witness :
  exists e w', run_command "id" 10 env_timeout w_empty =
    (inr (failure_result (RuntimeError ("Failed to create E2B sandbox: " ++ str_exn e)%string)), w') /\
    sandbox w' = None /\ should_recreate w' = true /\ trace w' = [ECreate 0].
Proof. apply (creation_failure_reported "id" 10%Z env_timeout w_empty); reflexivity. Defined.

Lemma first_command_after_recreate_witness :
  sandbox (snd (run_command "id" 10 env_ok w_empty)) = Some 0 /\
  command_count (snd (run_command "id" 10 env_ok w_empty)) = 1%Z.
Proof. apply (first_command_after_recreate "id" 10%Z env_ok w_empty); reflexivity. Defined.

Lemma close_then_lease_fresh_witness :
  exists w', (close_sandbox ;;; get_or_create_sandbox) env_ok (w_live 3) = (inr (Some 1), w') /\
             command_count w' = 0%Z.
Proof. apply (close_then_lease_fresh env_ok (w_live 3)); reflexivity. Defined.

Lemma install_stops_after_update_failure_witness :
  install_security_tools env_timeout (w_live 0) =
  (inr tt, log_call (ERun 0 update_cmd 120 OProvision) (log_event EProvision (w_live 0))).
Proof. apply (install_stops_after_update_failure env_timeout (w_live 0) 0); reflexivity. Defined.

Lemma info_zero_while_kept_witness :
  exists i, get_sandbox_info env_ok w_boundary = (inr i, w_boundary) /\ i_active i = true /\
            i_will_reset_in i = Some 0%Z /\
            get_or_create_sandbox env_ok w_boundary = (inr (Some 0), w_boundary).
Proof.
  apply (info_zero_while_kept env_ok w_boundary 0 900%Z); [reflexivity | reflexivity | lia | reflexivity | reflexivity].
Defined.

Lemma run_in_sandbox_output_witness :
  run_in_sandbox "id" 10 None env_ok (true, w_live 0) =
  (inr (r_output (result_of ok_result)), (true, snd (run_command "id" 10 env_ok (w_live 0)))).
Proof.
  apply (run_in_sandbox_output "id" 10%Z None env_ok (true, w_live 0));
    [left; reflexivity | vm_compute; reflexivity].
Defined.

Lemma run_in_sandbox_missing_key_witness :
  run_in_sandbox "id" 10 (Some "") env_ok (false, w_empty) =
  (inl (ValueError missing_key_msg), (false, w_empty)).
Proof. apply (run_in_sandbox_missing_key "id" 10%Z (Some "") env_ok w_empty); reflexivity. Defined.

Lemma cleanup_then_run_creates_witness :
  exists w1, cleanup (Some "key") env_ok (true, w_live 0) = (inr tt, (false, w1)) /\
    trace w1 = [] /\
    exists l, trace (snd (snd (run_in_sandbox "id" 10 (Some "key") env_ok (false, w1)))) =
              ECreate 1 :: l.
Proof. apply (cleanup_then_run_creates "id" 10%Z (Some "key") env_ok (w_live 0)); reflexivity. Defined.

Lemma recon_invalid_github_url_witness :
  run_recon "" "http://example.com/?ref=github.com" env_ok w_empty =
  (inr ("Invalid GitHub URL: " ++ "http://example.com/?ref=github.com")%string, w_empty).
Proof.
  apply (recon_invalid_github_url "" "http://example.com/?ref=github.com" env_ok w_empty);
    vm_compute; reflexivity.
Defined.

Lemma github_recon_commands_witness :
  exists out pre port w', run_recon "" "https://github.com/acme/app?tab=1" env_ok w_empty = (inr out, w') /\
    out = (pre ++ gh_summary "acme" (upto "?"%char "app") port)%string /\
    ((port = None /\
      (execs (trace w') = execs (trace w_empty) ++ [(clone_cmd "acme" (upto "?"%char "app"), 60%Z)] \/
       execs (trace w') = execs (trace w_empty) ++ [(clone_cmd "acme" (upto "?"%char "app"), 60%Z);
                                              (docker_cmd (upto "?"%char "app"), 30%Z)])) \/
     (exists p, port = Some p /\ p <> "" /\
      execs (trace w') = execs (trace w_empty) ++ [(clone_cmd "acme" (upto "?"%char "app"), 60%Z);
                                             (docker_cmd (upto "?"%char "app"), 30%Z);
                                             (port_cmd (upto "?"%char "app"), 10%Z);
                                             (analysis_cmd (upto "?"%char "app"), 30%Z)])).
Proof.
  apply (github_recon_commands "" "https://github.com/acme/app?tab=1" env_ok w_empty "acme" "app");
    vm_compute; reflexivity.
Defined.
